(** * Tape drive status panel and running-tasks widget of the backup
      server's web console: a shallow embedding of [www/tape/DriveStatus.js]
      and of the [PBS.RunningTasks] grid, with the properties of their
      specification.

    Conventions of the embedding.
    - A JavaScript string is the list of its UTF-16 code units ([jsstring]).
    - The values met in the device and status records are [undefined],
      [null] and strings ([jsval]).
    - A handler is a function in a state-and-exception monad: it receives the
      component's state, returns the state as mutated so far together with
      either a value or the exception raised.  Calls into the UI toolkit that
      only have an outside effect (a request, a timer, a window) are appended
      to the state's [trace]. *)

From Stdlib Require Import List String Ascii NArith ZArith Bool Arith Lia.
Import ListNotations.
Open Scope string_scope.
Open Scope list_scope.

(* ================================================================== *)
(** * JavaScript values and strings *)
(* ================================================================== *)

Module JS.

(** A string as its UTF-16 code units. *)
Definition jsstring := list N.

(** A source literal (ASCII only in these files). *)
Definition lit (s : string) : jsstring :=
  map N_of_ascii (list_ascii_of_string s).

Fixpoint str_eqb (a b : jsstring) : bool :=
  match a, b with
  | [], [] => true
  | x :: a', y :: b' => N.eqb x y && str_eqb a' b'
  | _, _ => false
  end.

(** [s.startsWith(p)] *)
Fixpoint startsWith (s p : jsstring) : bool :=
  match p, s with
  | [], _ => true
  | x :: p', y :: s' => N.eqb x y && startsWith s' p'
  | _ :: _, [] => false
  end.

Inductive jsval :=
| JUndefined
| JNull
| JStr (s : jsstring).

(** ToBoolean: [undefined], [null] and the empty string are falsy. *)
Definition truthy (v : jsval) : bool :=
  match v with
  | JUndefined | JNull => false
  | JStr [] => false
  | JStr (_ :: _) => true
  end.

(** [v || d] *)
Definition or_else (v d : jsval) : jsval := if truthy v then v else d.

Inductive exn :=
| TypeError (what : string)     (* property access or call on null/undefined *)
| Thrown (v : string).          (* [throw "..."] of a string value *)

Inductive result (A : Type) :=
| Ok (a : A)
| Throw (e : exn).
Arguments Ok {A} a.
Arguments Throw {A} e.

(** The character class [\s] of a regular expression without the [u] flag:
    WhiteSpace and LineTerminator code points. *)
Definition is_space (c : N) : bool :=
  ((9 <=? c) && (c <=? 13)         (* TAB LF VT FF CR *)
   || (c =? 32)                    (* SPACE *)
   || (c =? 160)                   (* U+00A0 *)
   || (c =? 5760)                  (* U+1680 *)
   || ((8192 <=? c) && (c <=? 8202)) (* U+2000 .. U+200A *)
   || (c =? 8232) || (c =? 8233)   (* U+2028 U+2029 *)
   || (c =? 8239)                  (* U+202F *)
   || (c =? 8287)                  (* U+205F *)
   || (c =? 12288)                 (* U+3000 *)
   || (c =? 65279))%N.             (* U+FEFF *)

(** Greedy [\s+] anchored at the head of [s]: the rest after the longest
    run of white space, [None] when [s] does not start with white space. *)
Fixpoint skip_space (s : jsstring) : jsstring :=
  match s with
  | c :: t => if is_space c then skip_space t else s
  | [] => []
  end.

Definition space_plus (s : jsstring) : option jsstring :=
  match s with
  | c :: t => if is_space c then Some (skip_space t) else None
  | [] => None
  end.

(** The separator of [onLoad], [/\s+|\s+/], anchored at the head of [s]:
    the left alternative first, the right one when it fails. *)
Definition separator (s : jsstring) : option jsstring :=
  match space_plus s with
  | Some r => Some r
  | None => space_plus s
  end.

(** [String.prototype.split] with a regular expression that has no capture
    group and cannot match the empty string, no limit given (the default
    limit of 2^32-1 pieces is beyond what a string can hold).  [piece] is
    the substring from the end [p] of the last separator to the current
    position [q], [rest] the string from [q] on: where the separator
    matches at [q] the piece is emitted and the scan resumes after the
    match, otherwise [q] advances by one.  At the end the last piece is
    emitted, so the empty string splits to one empty piece.  [fuel] bounds
    the number of iterations of the loop. *)
Fixpoint split_loop (sep : jsstring -> option jsstring) (fuel : nat)
         (piece rest : jsstring) : list jsstring :=
  match rest with
  | [] => [piece]
  | c :: t =>
      match fuel with
      | O => [piece ++ rest]
      | S fuel' =>
          match sep rest with
          | Some rest' => piece :: split_loop sep fuel' [] rest'
          | None => split_loop sep fuel' (piece ++ [c]) t
          end
      end
  end.

Definition split (sep : jsstring -> option jsstring) (s : jsstring)
  : list jsstring :=
  split_loop sep (List.length s) [] s.

(** [Array.prototype.indexOf] on an array of strings (strict equality). *)
Fixpoint indexOf (a : list jsstring) (x : jsstring) : Z :=
  match a with
  | [] => (-1)%Z
  | y :: a' =>
      if str_eqb y x then 0%Z
      else let i := indexOf a' x in
           if (i =? -1)%Z then (-1)%Z else (i + 1)%Z
  end.

End JS.
Export JS.

(* ================================================================== *)
(** * PBS.RunningTasks: the status renderer *)
(* ================================================================== *)

Module RunningTasks.

Definition dquote : string := String (ascii_of_nat 34) EmptyString.

(** [render_status] of the grid's controller. *)
Definition status_class (value : jsstring) : string :=
  let cls := "times-circle critical" in
  if str_eqb value (lit "OK") then "check-circle good"
  else if startsWith value (lit "WARNINGS:") then "exclamation-circle warning"
  else if str_eqb value (lit "unknown") then "question-circle faded"
  else cls.

Definition render_status (value : jsstring) : string :=
  ("<i class=" ++ dquote ++ "fa fa-" ++ status_class value ++ dquote
     ++ "></i>")%string.

End RunningTasks.

(* ================================================================== *)
(** * The UI toolkit as the panels use it *)
(* ================================================================== *)

Module Ext.

(** An entry of an [items] configuration: its [xtype], its [reference]
    when it declares one, and its own items. *)
#[warnings="-register-all"] Inductive component :=
| Component (xtype : string) (reference : option string)
            (items : list component).

Definition reference_of (c : component) : option string :=
  match c with Component _ r _ => r end.

(** The component and everything below it, in document order. *)
Fixpoint descendants (c : component) : list component :=
  match c with
  | Component _ _ kids => c :: flat_map descendants kids
  end.

Definition has_reference (ref : string) (c : component) : bool :=
  match reference_of c with
  | Some r => String.eqb r ref
  | None => false
  end.

(** [lookup(ref)] of a view controller: the component of the view that
    declares the reference, [null] when there is none. *)
Definition lookup_in (items : list component) (ref : string)
  : option component :=
  find (has_reference ref) (flat_map descendants items).

(** A device record of the shared tape store (the fields the panels
    read), and the store with its records and [isLoaded()]. *)
Record device := { name : jsstring; state : jsval }.

Record tapestore := { records : list device; isLoaded : bool }.

(** [store.findRecord('name', value, 0, false, true, true)]: from index 0,
    no partial match, case sensitive, exact match; the first such record,
    [null] when there is none. *)
Fixpoint findRecord (rs : list device) (value : jsstring) : option device :=
  match rs with
  | [] => None
  | r :: rs' => if str_eqb (name r) value then Some r else findRecord rs' value
  end.

(** The completion callback given to a task window:
    [taskDone: function() { me.reload(); }]. *)
Inductive done_cb := ReloadOnDone.

(** Windows created with [Ext.create(...)].  [TaskProgress] and
    [TaskViewer] follow the task [upid] (they are the task handles);
    [ResultWindow] displays the payload of a command that returns its
    result directly. *)
Inductive window :=
| LabelMediaWindow (driveid : jsstring)
| TaskProgress (upid : jsval) (taskDone : option done_cb)
| TaskViewer (upid : jsval) (taskDone : option done_cb)
| ResultWindow (kind : string) (data : jsval).

Definition is_task_handle (w : window) : bool :=
  match w with
  | TaskProgress _ _ | TaskViewer _ _ => true
  | _ => false
  end.

(** The [success] callbacks handed to [PBS.Utils.driveCommand]. *)
Inductive success_cb :=
| EjectSuccess                    (* the closure of [ejectMedia] *)
| CatalogSuccess                  (* the closure of [catalog] *)
| ShowMediaLabelWindow            (* PBS.Utils.showMediaLabelWindow *)
| ShowVolumeStatisticsWindow      (* PBS.Utils.showVolumeStatisticsWindow *)
| ShowCartridgeMemoryWindow.      (* PBS.Utils.showCartridgeMemoryWindow *)

Record request := {
  driveid : jsstring;
  command : string;
  waitMsgTarget : string;
  method : option string;
  success : success_cb;
}.

Inductive response :=
| Success (data : jsval)          (* [response.result.data] *)
| Failure (htmlStatus : string).

(** What a timer callback does once it runs. *)
Inductive deferred :=
| Mask (target : option component) (msg : string)
| Unmask (target : option component).

(** Calls whose effect lies outside the panel's own state. *)
Inductive effect :=
| RstoreLoad (ref : string)                 (* [<ref>.rstore.load()] *)
| SetTimeout (f : deferred) (ms : N)
| ApiRequest (r : request)
| FailureNotice (htmlStatus : string)
| Mon (source event handler : string)       (* [me.mon(source, event, handler)] *)
| ElRemoveListener (event : string)
| ElOn (event : string)
| ElAddCls (cls : string)
| ElRemoveCls (cls : string)
| VmNotify
| CallParent.

Definition is_reload (e : effect) : bool :=
  match e with RstoreLoad _ => true | _ => false end.

Definition is_mask (e : effect) : bool :=
  match e with SetTimeout (Mask _ _) _ => true | _ => false end.

Definition is_unmask (e : effect) : bool :=
  match e with SetTimeout (Unmask _) _ => true | _ => false end.

(** The global component registry: the tape stores of the navigation trees
    that [Ext.ComponentQuery.query('navigationtree')] returns. *)
Definition registry := list tapestore.

(** ** Handlers: state and exception *)

Section Monad.
Context {S : Type}.

Definition M (A : Type) := S -> S * result A.

Definition ret {A} (a : A) : M A := fun s => (s, Ok a).

Definition throw {A} (e : exn) : M A := fun s => (s, Throw e).

Definition bind {A B} (m : M A) (k : A -> M B) : M B :=
  fun s =>
    match m s with
    | (s', Ok a) => k a s'
    | (s', Throw e) => (s', Throw e)
    end.

Definition get : M S := fun s => (s, Ok s).

Definition modify (f : S -> S) : M unit := fun s => (f s, Ok tt).

(** Property access or method call on a value that may be [null]. *)
Definition deref {A} (what : string) (o : option A) : M A :=
  match o with
  | Some a => ret a
  | None => throw (TypeError what)
  end.
End Monad.
Arguments M : clear implicits.

End Ext.
Export Ext.

Declare Scope handler_scope.
Delimit Scope handler_scope with handler.
Notation "x <- m ;; k" := (bind m (fun x => k))
  (at level 61, m at next level, right associativity) : handler_scope.
Notation "m ;; k" := (bind m (fun _ => k))
  (at level 61, right associativity) : handler_scope.
Open Scope handler_scope.

(* ================================================================== *)
(** * PBS.TapeManagement.DriveInfoPanel *)
(* ================================================================== *)

Module DriveInfoPanel.

(** [items]: six info widgets, the last one referenced as [statewidget]. *)
Definition items : list component :=
  [ Component "pmxInfoWidget" None [];                  (* Name *)
    Component "pmxInfoWidget" None [];                  (* Vendor *)
    Component "pmxInfoWidget" None [];                  (* Model *)
    Component "pmxInfoWidget" None [];                  (* Serial *)
    Component "pmxInfoWidget" None [];                  (* Path *)
    Component "pmxInfoWidget" (Some "statewidget") [] ].  (* State *)

(** How far the toolkit has brought the panel: its items are instantiated
    by [callParent()] in [initComponent], not before; a widget has an
    element once it is rendered, not before. *)
Inductive progress :=
| Configured
| Built
| Rendered.

(** The panel: its [drive] configuration (absent when not given), the
    [drive] entry of its view model ([{}] until a record is stored), its
    stage and the outside calls made so far. *)
Record Panel := {
  drive : jsval;
  vm_drive : option device;
  stage : progress;
  trace : list effect;
}.

Definition create (drive : jsval) : Panel :=
  {| drive := drive; vm_drive := None; stage := Configured; trace := [] |}.

(** The toolkit renders the panel. *)
Definition render (p : Panel) : Panel :=
  {| drive := drive p; vm_drive := vm_drive p; stage := Rendered;
     trace := trace p |}.

Definition emit (e : effect) : M Panel unit :=
  modify (fun p => {| drive := drive p; vm_drive := vm_drive p;
                      stage := stage p; trace := trace p ++ [e] |}).

Definition vm_set_drive (d : device) : M Panel unit :=
  modify (fun p => {| drive := drive p; vm_drive := Some d;
                      stage := stage p; trace := trace p |}).

(** [me.drive] where a string is expected. *)
Definition drive_name (v : jsval) : jsstring :=
  match v with JStr s => s | _ => [] end.

(** [me.down('pmxInfoWidget[reference=statewidget]')]: the widget of the
    items with that type and reference once the items are instantiated,
    nothing to dereference before. *)
Definition down_statewidget (p : Panel) : option component :=
  match stage p with
  | Configured => None
  | Built | Rendered =>
      find (fun c =>
              match c with
              | Component xtype _ _ =>
                  String.eqb xtype "pmxInfoWidget"
                  && has_reference "statewidget" c
              end)
           (flat_map descendants items)
  end.

(** [stateWidget.getEl()]: the element of the widget once it is rendered,
    [undefined] before. *)
Definition getEl (p : Panel) (widget : component) : option component :=
  match stage p with
  | Rendered => Some widget
  | Configured | Built => None
  end.

(** [updateData(store)] *)
Definition updateData (store : option tapestore) : M Panel unit :=
  match store with
  | None => ret tt
  | Some store =>
      me <- get ;;
      let record := findRecord (records store) (drive_name (drive me)) in
      match record with
      | None => ret tt
      | Some record =>
          vm_set_drive record ;;
          me <- get ;;
          stateWidget <- deref "stateWidget" (down_statewidget me) ;;
          _ <- deref "stateEl" (getEl me stateWidget) ;;
          emit (ElRemoveListener "click") ;;
          (if truthy (state record) then
             emit (ElOn "click") ;;
             emit (ElAddCls "info-pointer")
           else
             emit (ElRemoveCls "info-pointer")) ;;
          emit VmNotify
      end
  end.

(** [me.callParent()] of [initComponent]: the panel's items are
    instantiated. *)
Definition callParent : M Panel unit :=
  emit CallParent ;;
  modify (fun p => {| drive := drive p; vm_drive := vm_drive p;
                      stage := match stage p with
                               | Configured => Built
                               | s => s
                               end;
                      trace := trace p |}).

(** [initComponent()], in the registry [reg] of navigation trees. *)
Definition initComponent (reg : registry) : M Panel unit :=
  me <- get ;;
  (if negb (truthy (drive me)) then throw (Thrown "no drive given")
   else ret tt) ;;
  tapeStore <- deref "navigationtree" (nth_error reg 0) ;;
  emit (Mon "tapeStore" "load" "updateData") ;;
  (if isLoaded tapeStore then updateData (Some tapeStore) else ret tt) ;;
  callParent.

Definition subscribed (p : Panel) : bool :=
  existsb (fun e => match e with Mon _ _ _ => true | _ => false end)
          (trace p).

End DriveInfoPanel.

(* ================================================================== *)
(** * PBS.TapeManagement.DriveStatus *)
(* ================================================================== *)

Module DriveStatus.

(** [viewModel.data] *)
Record ViewModel := { online : bool; busy : bool; loaded : bool }.

Definition viewModel_data : ViewModel :=
  {| online := false; busy := true; loaded := false |}.

(** [items]: a container with the information panel and the status grid. *)
Definition items : list component :=
  [ Component "container" None
      [ Component "pbsDriveInfoPanel" None DriveInfoPanel.items;
        Component "pbsDriveStatusGrid" (Some "statusgrid") [] ] ].

Definition lookup (ref : string) : option component := lookup_in items ref.

(** Rows of an object grid's store: key and value. *)
Definition rows := list (string * jsval).

(** The panel: the [drive] of the view, the view model, the store rows of
    its referenced components, the windows it has opened and the outside
    calls made so far. *)
Record Panel := {
  drive : jsstring;
  vm : ViewModel;
  stores : list (string * rows);
  windows : list window;
  trace : list effect;
}.

Definition create (drive : jsstring) : Panel :=
  {| drive := drive; vm := viewModel_data; stores := [];
     windows := []; trace := [] |}.

Definition with_vm (f : ViewModel -> ViewModel) (p : Panel) : Panel :=
  {| drive := drive p; vm := f (vm p); stores := stores p;
     windows := windows p; trace := trace p |}.

Definition vm_set_online (b : bool) : M Panel unit :=
  modify (with_vm (fun v =>
    {| online := b; busy := busy v; loaded := loaded v |})).

Definition vm_set_busy (b : bool) : M Panel unit :=
  modify (with_vm (fun v =>
    {| online := online v; busy := b; loaded := loaded v |})).

Definition vm_set_loaded (b : bool) : M Panel unit :=
  modify (with_vm (fun v =>
    {| online := online v; busy := busy v; loaded := b |})).

Definition emit (e : effect) : M Panel unit :=
  modify (fun p => {| drive := drive p; vm := vm p; stores := stores p;
                      windows := windows p; trace := trace p ++ [e] |}).

(** [Ext.create(...).show()] *)
Definition show (w : window) : M Panel unit :=
  modify (fun p => {| drive := drive p; vm := vm p; stores := stores p;
                      windows := windows p ++ [w]; trace := trace p |}).

Definition ref_name (c : component) : string :=
  match reference_of c with Some r => r | None => "" end.

Fixpoint assoc {A} (k : string) (l : list (string * A)) : option A :=
  match l with
  | [] => None
  | (k', a) :: l' => if String.eqb k' k then Some a else assoc k l'
  end.

Definition store_of (p : Panel) (c : component) : rows :=
  match assoc (ref_name c) (stores p) with Some r => r | None => [] end.

Definition set_store (ref : string) (r : rows) (p : Panel) : Panel :=
  {| drive := drive p; vm := vm p;
     stores := (ref, r) :: filter (fun kv => negb (String.eqb (fst kv) ref))
                                  (stores p);
     windows := windows p; trace := trace p |}.

(** [grid.getObjectValue(key)]: the value of the row, [undefined] when the
    store has no such row. *)
Definition getObjectValue (c : component) (key : string) : M Panel jsval :=
  p <- get ;;
  ret (match assoc key (store_of p c) with Some v => v | None => JUndefined end).

(** [grid.getStore().removeAll()] *)
Definition removeAll (c : component) : M Panel unit :=
  modify (set_store (ref_name c) []).

(** ** The controller *)

(** [reload()] *)
Definition reload : M Panel unit :=
  statusgrid <- deref "statusgrid" (lookup "statusgrid") ;;
  emit (RstoreLoad (ref_name statusgrid)).

(** [(v || "")] where a string is expected. *)
Definition status_text (v : jsval) : jsstring :=
  match or_else v (JStr []) with JStr s => s | _ => [] end.

(** [onLoad()], the listener of the status grid's store. *)
Definition onLoad : M Panel unit :=
  statusgrid <- deref "statusgrid" (lookup "statusgrid") ;;
  status <- getObjectValue statusgrid "status" ;;
  let statusFlags := split separator (status_text status) in
  let online := negb (indexOf statusFlags (lit "ONLINE") =? -1)%Z in
  vm_set_online online ;;
  if negb online then
    cartridgegrid <- deref "cartridgegrid" (lookup "cartridgegrid") ;;
    removeAll cartridgegrid
  else ret tt.

(** [onStateLoad(store)], the listener of the shared tape store. *)
Definition onStateLoad (store : tapestore) : M Panel unit :=
  view <- get ;;
  let driveRecord := findRecord (records store) (drive view) in
  data <- deref "driveRecord" driveRecord ;;
  let busy := truthy (state data) in          (* [!!driveRecord.data.state] *)
  vm_set_busy busy ;;
  let statusgrid := lookup "statusgrid" in
  me <- get ;;
  if negb (loaded (vm me)) then
    if busy then
      emit (SetTimeout (Mask statusgrid "Drive is busy") 10)
    else
      emit (SetTimeout (Unmask statusgrid) 10) ;;
      reload ;;
      vm_set_loaded true
  else ret tt.

(** [labelMedia()] *)
Definition labelMedia : M Panel unit :=
  me <- get ;;
  show (LabelMediaWindow (drive me)).

(** Modelled from the spec: [PBS.Utils.driveCommand] is defined in
    www/Utils.js, which is not among the sources.  Following the command
    dispatcher of the specification it sends the command request for the
    device without any gating of its own; the response arrives later
    ([on_response]). *)
Definition driveCommand (driveid : jsstring) (command : string)
           (waitMsgTarget : string) (method : option string)
           (success : success_cb) : M Panel unit :=
  emit (ApiRequest {| driveid := driveid; command := command;
                      waitMsgTarget := waitMsgTarget; method := method;
                      success := success |}).

(** [ejectMedia()] *)
Definition ejectMedia : M Panel unit :=
  view <- get ;;
  let driveid := drive view in
  driveCommand driveid "eject-media" "view" (Some "POST") EjectSuccess.

(** [catalog()] *)
Definition catalog : M Panel unit :=
  view <- get ;;
  let drive := drive view in
  driveCommand drive "catalog" "view" (Some "POST") CatalogSuccess.

(** [readLabel()] *)
Definition readLabel : M Panel unit :=
  view <- get ;;
  let drive := drive view in
  driveCommand drive "read-label" "view" None ShowMediaLabelWindow.

(** [volumeStatistics()] *)
Definition volumeStatistics : M Panel unit :=
  view <- get ;;
  let drive := drive view in
  driveCommand drive "volume-statistics" "view" None
               ShowVolumeStatisticsWindow.

(** [cartridgeMemory()] *)
Definition cartridgeMemory : M Panel unit :=
  view <- get ;;
  let drive := drive view in
  driveCommand drive "cartridge-memory" "view" None
               ShowCartridgeMemoryWindow.

(** Modelled from the spec: [PBS.Utils.showMediaLabelWindow],
    [showVolumeStatisticsWindow] and [showCartridgeMemoryWindow] are
    defined in www/Utils.js, which is not among the sources.  Their
    commands return the result payload directly and need no task
    tracking: the payload is displayed. *)
Definition showResultWindow (kind : string) (data : jsval) : M Panel unit :=
  show (ResultWindow kind data).

(** The body of a [success] callback, applied to [response.result.data]. *)
Definition run_success (cb : success_cb) (data : jsval) : M Panel unit :=
  match cb with
  | EjectSuccess => show (TaskProgress data (Some ReloadOnDone))
  | CatalogSuccess => show (TaskViewer data (Some ReloadOnDone))
  | ShowMediaLabelWindow => showResultWindow "media-label" data
  | ShowVolumeStatisticsWindow => showResultWindow "volume-statistics" data
  | ShowCartridgeMemoryWindow => showResultWindow "cartridge-memory" data
  end.

(** Modelled from the spec: the completion of a request sent by
    [driveCommand].  A successful response is handed to the caller's
    [success] callback; a failed request is surfaced through a failure
    notification, without retry and without any other action. *)
Definition on_response (r : request) (resp : response) : M Panel unit :=
  match resp with
  | Success data => run_success (success r) data
  | Failure htmlStatus => emit (FailureNotice htmlStatus)
  end.

(** A completion event of the task followed by window [w]: its [taskDone]
    callback runs. *)
Definition taskDone (w : window) : M Panel unit :=
  match w with
  | TaskProgress _ (Some ReloadOnDone)
  | TaskViewer _ (Some ReloadOnDone) => reload
  | _ => ret tt
  end.


(** ** The tool bar *)

(** A bind template on one flag of the view model: ['{flag}'] or
    ['{!flag}']. *)
Inductive bind_exp :=
| Is (flag : string)
| IsNot (flag : string).

Record button := {
  text : string;
  handler : string;
  disabled : bool;                (* the configured initial value *)
  bind_disabled : bind_exp;
}.

(** [tbar] (its ['-'] separator left out). *)
Definition tbar : list button :=
  [ {| text := "Reload"; handler := "reload";
       disabled := true; bind_disabled := Is "busy" |};
    {| text := "Label Media"; handler := "labelMedia";
       disabled := true; bind_disabled := IsNot "online" |};
    {| text := "Eject"; handler := "ejectMedia";
       disabled := true; bind_disabled := IsNot "online" |};
    {| text := "Catalog"; handler := "catalog";
       disabled := true; bind_disabled := IsNot "online" |};
    {| text := "Read Label"; handler := "readLabel";
       disabled := true; bind_disabled := IsNot "online" |};
    {| text := "Volume Statistics"; handler := "volumeStatistics";
       disabled := true; bind_disabled := IsNot "online" |};
    {| text := "Cartridge Memory"; handler := "cartridgeMemory";
       disabled := true; bind_disabled := IsNot "online" |} ].

(** [vm.get(flag)] as a boolean. *)
Definition vm_get (v : ViewModel) (flag : string) : bool :=
  if String.eqb flag "online" then online v
  else if String.eqb flag "busy" then busy v
  else if String.eqb flag "loaded" then loaded v
  else false.

Definition eval_bind (v : ViewModel) (e : bind_exp) : bool :=
  match e with
  | Is flag => vm_get v flag
  | IsNot flag => negb (vm_get v flag)
  end.

(** The [disabled] property of a button once its binding has been
    evaluated on the view model, and the button's enabled state. *)
Definition bound_disabled (v : ViewModel) (b : button) : bool :=
  eval_bind v (bind_disabled b).

Definition enabled (v : ViewModel) (b : button) : bool :=
  negb (bound_disabled v b).

Definition button_named (t : string) : option button :=
  find (fun b => String.eqb (text b) t) tbar.

(** The controller method a handler name resolves to. *)
Definition call (handler : string) : M Panel unit :=
  if String.eqb handler "reload" then reload
  else if String.eqb handler "labelMedia" then labelMedia
  else if String.eqb handler "ejectMedia" then ejectMedia
  else if String.eqb handler "catalog" then catalog
  else if String.eqb handler "readLabel" then readLabel
  else if String.eqb handler "volumeStatistics" then volumeStatistics
  else if String.eqb handler "cartridgeMemory" then cartridgeMemory
  else throw (TypeError handler).

(** ** The event loop *)

Inductive event :=
| StatusLoad (data : rows)            (* the status grid's store loaded [data] *)
| StateLoad (store : tapestore)       (* the shared tape store loaded *)
| Click (text : string)               (* a click on the button with this text *)
| Response (r : request) (resp : response)
| TaskDone (w : window).

Definition handle (ev : event) : M Panel unit :=
  match ev with
  | StatusLoad data => modify (set_store "statusgrid" data) ;; onLoad
  | StateLoad store => onStateLoad store
  | Click t =>
      me <- get ;;
      match button_named t with
      | Some b => if enabled (vm me) b then call (handler b) else ret tt
      | None => ret tt
      end
  | Response r resp => on_response r resp
  | TaskDone w => taskDone w
  end.

(** One turn of the event loop: the handler runs; an exception ends it and
    leaves the state as mutated so far. *)
Definition dispatch (p : Panel) (ev : event) : Panel := fst (handle ev p).

Definition run (p : Panel) (evs : list event) : Panel :=
  fold_left dispatch evs p.

(** The outside calls a handler adds to the trace of [p]. *)
Definition emitted {A} (m : M Panel A) (p : Panel) : list effect :=
  skipn (List.length (trace p)) (trace (fst (m p))).

Definition outcome {A} (m : M Panel A) (p : Panel) : result A := snd (m p).

End DriveStatus.

(* ================================================================== *)
(** * What the specification observes *)
(* ================================================================== *)

Module Spec.
Import DriveStatus.

(** ** Tokens of a status text

    The specification's reading of the status field, in its own words:
    the field is tokenized on white space.  [t] is a token of [s] when it
    is a non-empty run of characters that are not white space, and the run
    is delimited on each side by white space or by the end of the string. *)

Definition bounded_left (pre : jsstring) : Prop :=
  pre = [] \/ is_space (last pre 0%N) = true.

Definition bounded_right (post : jsstring) : Prop :=
  post = [] \/ is_space (hd 0%N post) = true.

Definition ws_token (s t : jsstring) : Prop :=
  t <> [] /\
  Forall (fun c => is_space c = false) t /\
  exists pre post,
    s = pre ++ t ++ post /\ bounded_left pre /\ bounded_right post.

(** The value of a row of a status snapshot, [undefined] when absent. *)
Definition field (data : rows) (key : string) : jsval :=
  match assoc key data with Some v => v | None => JUndefined end.

(** ** Histories of a run of events *)

(** The tape store snapshot of [ev] shows the drive [d] without a task. *)
Definition idle_event (d : jsstring) (ev : event) : bool :=
  match ev with
  | StateLoad store =>
      match findRecord (records store) d with
      | Some r => negb (truthy (state r))
      | None => false
      end
  | _ => false
  end.

(** The tape store snapshot of [ev] shows the drive [d] owned by a task. *)
Definition busy_event (d : jsstring) (ev : event) : bool :=
  match ev with
  | StateLoad store =>
      match findRecord (records store) d with
      | Some r => truthy (state r)
      | None => false
      end
  | _ => false
  end.

(** One mark per event: [true] exactly at the first idle snapshot. *)
Fixpoint first_idle_marks (d : jsstring) (evs : list event) : list bool :=
  match evs with
  | [] => []
  | ev :: evs' =>
      if idle_event d ev then true :: map (fun _ => false) evs'
      else false :: first_idle_marks d evs'
  end.

(** One mark per event: [true] from the first idle snapshot on. *)
Fixpoint idle_seen_marks (d : jsstring) (evs : list event) : list bool :=
  match evs with
  | [] => []
  | ev :: evs' =>
      if idle_event d ev then true :: map (fun _ => true) evs'
      else false :: idle_seen_marks d evs'
  end.

(** Per event of a run from [p]: how many of the outside calls selected by
    [f] the tape store listener makes on that event (0 for the events of
    other kinds, which do not run the listener). *)
Fixpoint listener_counts (f : effect -> bool) (p : Panel)
         (evs : list event) : list nat :=
  match evs with
  | [] => []
  | ev :: evs' =>
      (match ev with
       | StateLoad _ => List.length (filter f (emitted (handle ev) p))
       | _ => 0
       end) :: listener_counts f (dispatch p ev) evs'
  end.

(** Per event of a run from [p]: the [loaded] latch after the event. *)
Fixpoint latch_marks (p : Panel) (evs : list event) : list bool :=
  match evs with
  | [] => []
  | ev :: evs' =>
      loaded (vm (dispatch p ev)) :: latch_marks (dispatch p ev) evs'
  end.

(** ** Glyph classes of the task status renderer *)

Definition glyph_good := "check-circle good".
Definition glyph_warning := "exclamation-circle warning".
Definition glyph_faded := "question-circle faded".
Definition glyph_critical := "times-circle critical".

Definition icon (cls : string) : string :=
  ("<i class=" ++ RunningTasks.dquote ++ "fa fa-" ++ cls
     ++ RunningTasks.dquote ++ "></i>")%string.

End Spec.

(** ** Sample inputs *)

Module Sample.
Import DriveStatus.

Definition drv0 : jsstring := lit "drv0".

Definition snapshot (name : string) (state : jsval) : tapestore :=
  {| records := [ {| name := lit name; state := state |} ];
     isLoaded := true |}.

Definition busy_snapshot : tapestore :=
  snapshot "drv0" (JStr (lit "UPID:pbs:0001:eject-media:drv0:root@pam:")).

Definition idle_snapshot : tapestore := snapshot "drv0" JNull.

(** A snapshot that does not list [drv0]. *)
Definition other_snapshot : tapestore := snapshot "drv1" JNull.

Definition status_rows (status : string) : rows :=
  [("status", JStr (lit status))].

(** The panel of [drv0] once the drive was seen idle and on line. *)
Definition online_panel : Panel :=
  run (create drv0)
      [StateLoad idle_snapshot; StatusLoad (status_rows "ONLINE READY")].

End Sample.

(* ================================================================== *)
(** * Further parts of the panels *)
(* ================================================================== *)

(** ** DriveStatus: the bind data of the view *)

Module DriveStatusUrls.

(** [baseurl] of [cbindData]: the drive is put into the path as it is. *)
Definition baseurl (drive : jsstring) : jsstring :=
  lit "/api2/json/tape/drive/" ++ drive ++ lit "/".

(** The two entries [cbindData] returns. *)
Definition driveStatusUrl (drive : jsstring) : jsstring :=
  baseurl drive ++ lit "/status".

Definition cartridgeMemoryUrl (drive : jsstring) : jsstring :=
  baseurl drive ++ lit "/cartridge-memory".

End DriveStatusUrls.

(** ** DriveInfoPanel: the click on the state widget *)

Module DriveInfoClick.
Import DriveInfoPanel.

(** [drive.state] of the view model's [drive], [undefined] on the initial
    [{}]. *)
Definition drive_state (p : Panel) : jsval :=
  match vm_drive p with
  | Some d => state d
  | None => JUndefined
  end.

(** [clickState(e, t)]: the windows it creates; [right_aligned] is
    [t.classList.contains('right-aligned')]. *)
Definition clickState (right_aligned : bool) (p : Panel) : list window :=
  if right_aligned then
    let upid := drive_state p in
    match upid with
    | JStr s =>
        if negb (truthy upid) || negb (startsWith s (lit "UPID")) then []
        else [TaskViewer upid None]
    | _ => []
    end
  else [].

(** Whether the last call on the click listener among the outside calls
    [l] is an [on], and whether the last call on the pointer class is an
    [addCls]; [now] where [l] has no such call. *)
Fixpoint listening (l : list effect) (now : bool) : bool :=
  match l with
  | [] => now
  | ElOn _ :: l' => listening l' true
  | ElRemoveListener _ :: l' => listening l' false
  | _ :: l' => listening l' now
  end.

Fixpoint pointer (l : list effect) (now : bool) : bool :=
  match l with
  | [] => now
  | ElAddCls _ :: l' => pointer l' true
  | ElRemoveCls _ :: l' => pointer l' false
  | _ :: l' => pointer l' now
  end.

End DriveInfoClick.

(** ** PoolEditWindow: the bind data of the edit window *)

Module PoolEditWindow.

(** The characters [encodeURIComponent] leaves as they are: letters,
    digits and [- _ . ! ~ * ' ( )]. *)
Definition unreserved (c : N) : bool :=
  ((65 <=? c) && (c <=? 90) || (97 <=? c) && (c <=? 122)
   || (48 <=? c) && (c <=? 57)
   || (c =? 45) || (c =? 95) || (c =? 46) || (c =? 33) || (c =? 126)
   || (c =? 42) || (c =? 39) || (c =? 40) || (c =? 41))%N.

Definition hex_digit (n : N) : N :=
  (if n <? 10 then 48 + n else 55 + n)%N.

(** ["%XX"] for one octet. *)
Definition percent (octet : N) : jsstring :=
  [37; hex_digit (octet / 16); hex_digit (octet mod 16)]%N.

(** The UTF-8 octets of a code point. *)
Definition utf8 (cp : N) : list N :=
  (if cp <? 128 then [cp]
   else if cp <? 2048 then [192 + cp / 64; 128 + cp mod 64]
   else if cp <? 65536 then
     [224 + cp / 4096; 128 + (cp / 64) mod 64; 128 + cp mod 64]
   else [240 + cp / 262144; 128 + (cp / 4096) mod 64;
         128 + (cp / 64) mod 64; 128 + cp mod 64])%N.

Definition is_lead (c : N) : bool := ((55296 <=? c) && (c <=? 56319))%N.

Definition is_trail (c : N) : bool := ((56320 <=? c) && (c <=? 57343))%N.

(** [encodeURIComponent(s)]: an unreserved code unit is copied, any other
    code point is replaced by the escapes of its UTF-8 octets; [None] is the
    URIError raised on a surrogate that has no partner. *)
Fixpoint encodeURIComponent (s : jsstring) : option jsstring :=
  match s with
  | [] => Some []
  | c :: t =>
      if unreserved c then option_map (cons c) (encodeURIComponent t)
      else if is_trail c then None
      else if is_lead c then
        match t with
        | d :: t' =>
            if is_trail d then
              option_map
                (app (flat_map percent
                        (utf8 ((c - 55296) * 1024 + (d - 56320) + 65536)%N)))
                (encodeURIComponent t')
            else None
        | [] => None
        end
      else option_map (app (flat_map percent (utf8 c))) (encodeURIComponent t)
  end.

(** The fields of the window that [cbindData] assigns; [isCreate] is [true]
    on the class, [url] and [method] are not set there. *)
Record Window := { isCreate : bool; url : jsval; method : jsval }.

Definition defaults : Window :=
  {| isCreate := true; url := JUndefined; method := JUndefined |}.

Inductive completion :=
| Returned          (* the function returned [{ }] *)
| URIError.         (* [encodeURIComponent] raised *)

Definition baseurl : jsstring := lit "/api2/extjs/config/media-pool".

(** [initialConfig.poolid] where a string is expected. *)
Definition poolid_text (poolid : jsval) : jsstring :=
  match poolid with JStr s => s | _ => [] end.

(** [cbindData(initialConfig)], on [initialConfig.poolid]: the window as
    assigned so far, and how the call ended. *)
Definition cbindData (poolid : jsval) (me : Window) : Window * completion :=
  let me1 := {| isCreate := negb (truthy poolid); url := url me;
                method := method me |} in
  let url_value :=
    if truthy poolid then
      option_map (fun e => baseurl ++ lit "/" ++ e)
                 (encodeURIComponent (poolid_text poolid))
    else Some baseurl in
  match url_value with
  | None => (me1, URIError)
  | Some u =>
      ({| isCreate := isCreate me1; url := JStr u;
          method := JStr (if truthy poolid then lit "PUT" else lit "POST") |},
       Returned)
  end.

(** The characters an encoded component is made of. *)
Definition component_char (c : N) : bool :=
  (unreserved c || (c =? 37) || (48 <=? c) && (c <=? 57)
   || (65 <=? c) && (c <=? 70))%N.

(** A string of 16-bit code units. *)
Definition code_units (s : jsstring) : Prop :=
  Forall (fun c => (c < 65536)%N) s.

End PoolEditWindow.

(** ** Observations on runs, for the further properties *)

Module Observe.
Import DriveStatus Spec.

Definition is_status_load (ev : event) : bool :=
  match ev with StatusLoad _ => true | _ => false end.

Definition is_state_load (ev : event) : bool :=
  match ev with StateLoad _ => true | _ => false end.

(** The tape store snapshot of [ev] lists the drive [d]. *)
Definition lists_drive (d : jsstring) (ev : event) : bool :=
  match ev with
  | StateLoad store =>
      match findRecord (records store) d with Some _ => true | None => false end
  | _ => false
  end.

(** One mark per event: [true] at the busy snapshots that come before the
    first idle snapshot. *)
Fixpoint busy_before_idle_marks (d : jsstring) (evs : list event)
  : list bool :=
  match evs with
  | [] => []
  | ev :: evs' =>
      if idle_event d ev then false :: map (fun _ => false) evs'
      else busy_event d ev :: busy_before_idle_marks d evs'
  end.

(** The request a tool bar command sends for the drive [d]: the command
    name, the HTTP method given and the [success] callback. *)
Definition command_request (d : jsstring) (command : string)
           (method : option string) (success : success_cb) : request :=
  {| driveid := d; command := command; waitMsgTarget := "view";
     method := method; success := success |}.

(** The button texts of the five commands with their requests. *)
Definition command_buttons (d : jsstring) : list (string * request) :=
  [ ("Eject", command_request d "eject-media" (Some "POST") EjectSuccess);
    ("Catalog", command_request d "catalog" (Some "POST") CatalogSuccess);
    ("Read Label", command_request d "read-label" None ShowMediaLabelWindow);
    ("Volume Statistics",
     command_request d "volume-statistics" None ShowVolumeStatisticsWindow);
    ("Cartridge Memory",
     command_request d "cartridge-memory" None ShowCartridgeMemoryWindow) ].

Definition is_post (r : request) : bool :=
  match Ext.method r with
  | Some m => String.eqb m "POST"
  | None => false
  end.

End Observe.

(* ================================================================== *)
(** * Strings *)
(* ================================================================== *)

Lemma str_eqb_eq (a b : jsstring) : str_eqb a b = true <-> a = b.
Proof.
  revert b; induction a as [|x a IH]; intros [|y b]; simpl; split;
    try discriminate; try reflexivity.
  - intros H. apply andb_true_iff in H as [Hx Hr].
    apply N.eqb_eq in Hx. apply IH in Hr. now subst.
  - intros H. injection H as -> ->.
    rewrite N.eqb_refl. simpl. now apply IH.
Qed.

Lemma str_eqb_neq (a b : jsstring) : str_eqb a b = false <-> a <> b.
Proof.
  rewrite <- str_eqb_eq. destruct (str_eqb a b); split; intros H;
    try discriminate; try reflexivity; try (intros H'; discriminate).
  now elim H.
Qed.

Lemma startsWith_prefix (s p : jsstring) :
  startsWith s p = true <-> exists rest, s = p ++ rest.
Proof.
  revert s; induction p as [|x p IH]; intros s; simpl.
  - split; [intros _; now exists s | now destruct s].
  - destruct s as [|y s]; simpl.
    + split; [discriminate | intros [rest H]; discriminate].
    + rewrite andb_true_iff, N.eqb_eq, IH. split.
      * intros [-> [rest ->]]. now exists rest.
      * intros [rest H]. injection H as -> ->. split; [reflexivity | now exists rest].
Qed.

(* ================================================================== *)
(** * The task status renderer *)
(* ================================================================== *)

Section RenderStatus.
Import RunningTasks Spec.

Lemma render_status_icon (value : jsstring) :
  render_status value = icon (status_class value).
Proof. reflexivity. Qed.

Lemma status_class_cases (value : jsstring) :
  (value = lit "OK" /\ status_class value = glyph_good) \/
  (value <> lit "OK" /\ startsWith value (lit "WARNINGS:") = true /\
     status_class value = glyph_warning) \/
  (value <> lit "OK" /\ startsWith value (lit "WARNINGS:") = false /\
     value = lit "unknown" /\ status_class value = glyph_faded) \/
  (value <> lit "OK" /\ startsWith value (lit "WARNINGS:") = false /\
     value <> lit "unknown" /\ status_class value = glyph_critical).
Proof.
  unfold status_class.
  destruct (str_eqb value (lit "OK")) eqn:Eok.
  { left. apply str_eqb_eq in Eok. auto. }
  apply str_eqb_neq in Eok. right.
  destruct (startsWith value (lit "WARNINGS:")) eqn:Ew.
  { left. auto. }
  right.
  destruct (str_eqb value (lit "unknown")) eqn:Eu.
  - left. apply str_eqb_eq in Eu. auto.
  - right. apply str_eqb_neq in Eu. auto.
Qed.

(** C9. The status renderer of the running-tasks grid yields exactly one
    glyph for a status string: the success glyph exactly for ["OK"], the
    warning glyph exactly for the strings that begin with ["WARNINGS:"],
    the faded question glyph exactly for ["unknown"], and the critical
    glyph exactly for every other string. *)
Theorem render_status_glyph (value : jsstring) :
  (render_status value = icon glyph_good <-> value = lit "OK") /\
  (render_status value = icon glyph_warning <->
     exists rest, value = lit "WARNINGS:" ++ rest) /\
  (render_status value = icon glyph_faded <-> value = lit "unknown") /\
  (render_status value = icon glyph_critical <->
     value <> lit "OK" /\
     (forall rest, value <> lit "WARNINGS:" ++ rest) /\
     value <> lit "unknown").
Proof.
  rewrite render_status_icon.
  pose proof (startsWith_prefix value (lit "WARNINGS:")) as Hpre.
  assert (Hnone : startsWith value (lit "WARNINGS:") = false ->
                  forall rest, value <> lit "WARNINGS:" ++ rest).
  { intros Hw rest Hr. rewrite (proj2 Hpre) in Hw by now exists rest.
    discriminate. }
  destruct (status_class_cases value)
    as [[Hv ->] | [(Hok & Hw & ->) | [(Hok & Hw & Hu & ->)
                                     | (Hok & Hw & Hu & ->)]]].
  - subst value. clear Hpre Hnone.
    split; [|split; [|split]]; split; intros H;
      first [ reflexivity
            | vm_compute in H; discriminate
            | destruct H as [rest H]; vm_compute in H; discriminate
            | destruct H as (H & _); now elim H ].
  - split; [|split; [|split]]; split; intros H;
      first [ reflexivity
            | now apply Hpre
            | now elim Hok
            | vm_compute in H; discriminate
            | subst value; vm_compute in Hw; discriminate
            | destruct H as (_ & H & _); apply Hpre in Hw as [rest Hr];
              now elim (H rest) ].
  - split; [|split; [|split]]; split; intros H;
      first [ reflexivity
            | assumption
            | now elim Hok
            | vm_compute in H; discriminate
            | apply Hpre in H; rewrite H in Hw; discriminate
            | destruct H as (_ & _ & H); now elim H ].
  - split; [|split; [|split]]; split; intros H;
      first [ reflexivity
            | now elim Hok
            | now elim Hu
            | vm_compute in H; discriminate
            | apply Hpre in H; rewrite H in Hw; discriminate
            | repeat split; auto ].
Qed.

End RenderStatus.

(* ================================================================== *)
(** * The tool bar *)
(* ================================================================== *)

Section ToolBar.
Import DriveStatus.

(** C7. The enabled state of every tool bar button is a function of the
    flags [online] and [busy] alone: Reload is enabled iff [busy] is
    false, and Label Media, Eject, Catalog, Read Label, Volume Statistics
    and Cartridge Memory are enabled iff [online] is true; with [online]
    false these six are disabled whatever [busy] is. *)
Theorem tbar_gating (v : ViewModel) :
  map (fun b => (text b, enabled v b)) tbar =
    [ ("Reload", negb (busy v));
      ("Label Media", online v);
      ("Eject", online v);
      ("Catalog", online v);
      ("Read Label", online v);
      ("Volume Statistics", online v);
      ("Cartridge Memory", online v) ] /\
  (forall l,
      map (enabled v) tbar =
      map (enabled {| online := online v; busy := busy v; loaded := l |})
          tbar) /\
  (forall b l,
      map (fun t => option_map
                      (enabled {| online := false; busy := b; loaded := l |})
                      (button_named t))
          ["Label Media"; "Eject"; "Catalog"; "Read Label";
           "Volume Statistics"; "Cartridge Memory"] =
      repeat (Some false) 6).
Proof.
  destruct v as [[] [] l];
    (split; [reflexivity | split; intros; reflexivity]).
Qed.

End ToolBar.

(* ================================================================== *)
(** * The information panel *)
(* ================================================================== *)

Section InfoPanel.
Import DriveInfoPanel.

Lemma initComponent_no_drive (reg : registry) (p : Panel) :
  truthy (drive p) = false ->
  initComponent reg p = (p, Throw (Thrown "no drive given")).
Proof.
  intros H. unfold initComponent, bind, get. simpl. now rewrite H.
Qed.

(** After the guard the only exceptions are TypeErrors: [updateData]
    raises nothing else. *)
Lemma updateData_raises_type_error (store : option tapestore) (p : Panel) :
  snd (updateData store p) = Ok tt \/
  exists what, snd (updateData store p) = Throw (TypeError what).
Proof.
  destruct store as [store|]; [|now left].
  unfold updateData, bind, get. cbn.
  destruct (findRecord _ _) as [r|]; [|now left]. cbn.
  unfold down_statewidget, getEl. cbn.
  destruct (stage p); cbn.
  - right. eexists. reflexivity.
  - right. eexists. reflexivity.
  - left. now destruct (truthy (state r)).
Qed.

(** C10. Initialising the drive information panel without a configured
    drive throws ["no drive given"] before anything else happens: the
    panel is left exactly as it was, so the shared device-list store is
    not subscribed to.  With a drive configured the initialisation gets
    past that point: whatever happens afterwards, its outcome is never
    that exception. *)
Theorem initComponent_guard (reg : registry) (p : Panel) :
  (truthy (drive p) = false ->
     initComponent reg p = (p, Throw (Thrown "no drive given"))) /\
  (truthy (drive p) = true ->
     snd (initComponent reg p) <> Throw (Thrown "no drive given")).
Proof.
  split; [apply initComponent_no_drive|].
  intros H. unfold initComponent, bind, get. cbn -[updateData].
  rewrite H. cbn -[updateData].
  destruct reg as [|tapeStore reg]; [cbn; discriminate|].
  cbn -[updateData].
  destruct (isLoaded tapeStore); [|cbn; discriminate].
  match goal with
  | |- context [updateData ?st ?q] =>
      destruct (updateData_raises_type_error st q) as [Hu | [what Hu]];
      destruct (updateData st q) as [q' res]
  end; cbn in Hu; subst res; cbn; discriminate.
Qed.

End InfoPanel.

(* ================================================================== *)
(** * The tape store listener *)
(* ================================================================== *)

Section StateLoad.
Import DriveStatus Spec Sample.

Lemma skipn_app_length {A} (l l' : list A) :
  skipn (List.length l) (l ++ l') = l'.
Proof. induction l as [|x l IH]; simpl; auto. Qed.

Lemma emitted_trace {A} (m : M Panel A) (p : Panel) (l : list effect) :
  trace (fst (m p)) = trace p ++ l -> emitted m p = l.
Proof. unfold emitted. intros ->. apply skipn_app_length. Qed.

Lemma emitted_nothing {A} (m : M Panel A) (p : Panel) :
  trace (fst (m p)) = trace p -> emitted m p = [].
Proof.
  intros H. apply emitted_trace. now rewrite app_nil_r.
Qed.

(** The listener by cases: the drive is not listed; the latch is set; the
    latch is not set and the drive is busy; the latch is not set and the
    drive is idle. *)

Lemma onStateLoad_missing (p : Panel) (store : tapestore) :
  findRecord (records store) (drive p) = None ->
  onStateLoad store p = (p, Throw (TypeError "driveRecord")).
Proof.
  intros H. unfold onStateLoad, bind, get. cbn. now rewrite H.
Qed.

Lemma onStateLoad_latched (p : Panel) (store : tapestore) (r : device) :
  findRecord (records store) (drive p) = Some r ->
  loaded (vm p) = true ->
  onStateLoad store p = (fst (vm_set_busy (truthy (state r)) p), Ok tt).
Proof.
  destruct p as [d [o b l] st w tr]. cbn. intros H ->.
  unfold onStateLoad, bind, get. cbn. rewrite H. reflexivity.
Qed.

Lemma onStateLoad_busy (p : Panel) (store : tapestore) (r : device) :
  findRecord (records store) (drive p) = Some r ->
  loaded (vm p) = false ->
  truthy (state r) = true ->
  onStateLoad store p =
    (fst ((vm_set_busy true ;;
           emit (SetTimeout (Mask (lookup "statusgrid") "Drive is busy") 10))
            p), Ok tt).
Proof.
  destruct p as [d [o b l] st w tr]. cbn. intros H -> Hb.
  unfold onStateLoad, bind, get. cbn. rewrite H. cbn. rewrite Hb.
  reflexivity.
Qed.

Lemma onStateLoad_idle (p : Panel) (store : tapestore) (r : device) :
  findRecord (records store) (drive p) = Some r ->
  loaded (vm p) = false ->
  truthy (state r) = false ->
  onStateLoad store p =
    (fst ((vm_set_busy false ;;
           emit (SetTimeout (Unmask (lookup "statusgrid")) 10) ;;
           emit (RstoreLoad "statusgrid") ;;
           vm_set_loaded true) p), Ok tt).
Proof.
  destruct p as [d [o b l] st w tr]. cbn. intros H -> Hb.
  unfold onStateLoad, bind, get. cbn. rewrite H. cbn. rewrite Hb.
  reflexivity.
Qed.

(** C1 (the listener departs from the claim).  The panel of [drv0]
    receives a snapshot of the tape store that does not list [drv0]: the
    listener raises a TypeError on the missing record instead of taking
    the drive as not busy, and the [busy] flag keeps its value, [true] on
    a new panel. *)
Theorem onStateLoad_unlisted_drive_throws :
  findRecord (records other_snapshot) drv0 = None /\
  handle (StateLoad other_snapshot) (create drv0) =
    (create drv0, Throw (TypeError "driveRecord")) /\
  busy (vm (dispatch (create drv0) (StateLoad other_snapshot))) = true.
Proof. repeat split. Qed.

(** C2. On a snapshot of the tape store that lists the panel's drive, the
    listener sets [busy] to true iff the [state] field of the drive's
    record is neither null (or absent) nor the empty string; the panel
    state is arbitrary, so this holds on every such event, before and
    after the [loaded] latch is set. *)
Theorem busy_recomputed (p : Panel) (store : tapestore) (r : device) :
  findRecord (records store) (drive p) = Some r ->
  outcome (handle (StateLoad store)) p = Ok tt /\
  (busy (vm (dispatch p (StateLoad store))) = true <->
     state r <> JUndefined /\ state r <> JNull /\ state r <> JStr []).
Proof.
  intros H. unfold dispatch, outcome, handle.
  assert (Ht : truthy (state r) = true <->
               state r <> JUndefined /\ state r <> JNull /\ state r <> JStr []).
  { destruct (state r) as [| |[|c s]]; simpl; split;
      try discriminate; try (intros (H1 & H2 & H3); congruence);
      intros _; repeat split; discriminate. }
  destruct (loaded (vm p)) eqn:Hl.
  - rewrite (onStateLoad_latched p store r H Hl). simpl. now split.
  - destruct (truthy (state r)) eqn:Hb.
    + rewrite (onStateLoad_busy p store r H Hl Hb). simpl. now split.
    + rewrite (onStateLoad_idle p store r H Hl Hb). simpl. now split.
Qed.

Lemma busy_recomputed_witness :
  findRecord (records busy_snapshot) (drive online_panel) =
    Some {| name := drv0;
            state := JStr (lit "UPID:pbs:0001:eject-media:drv0:root@pam:") |} /\
  loaded (vm online_panel) = true /\
  busy (vm (dispatch online_panel (StateLoad busy_snapshot))) = true.
Proof.
  split; [reflexivity | split; [reflexivity|]].
  apply (busy_recomputed online_panel busy_snapshot
           {| name := drv0;
              state := JStr (lit "UPID:pbs:0001:eject-media:drv0:root@pam:") |}).
  - reflexivity.
  - repeat split; discriminate.
Defined.

(** C5, as the claim states it, fails: the panel of [drv0] has seen the
    drive idle (the latch is set), the next snapshot shows the drive
    owned by a task, and the listener schedules no mask of the status
    region. *)
Lemma busy_again_does_not_mask :
  loaded (vm online_panel) = true /\
  busy_event (drive online_panel) (StateLoad busy_snapshot) = true /\
  existsb is_mask (emitted (handle (StateLoad busy_snapshot)) online_panel)
    = false.
Proof. repeat split. Qed.

(** C5, amended.  Once the latch is set, a snapshot that shows the drive
    owned by a task again sets [busy] to true and does nothing else: the
    latch stays set, [online] is unchanged, and the listener makes no
    outside call, so it neither masks the status region nor reloads it. *)
Theorem busy_again_after_idle (p : Panel) (store : tapestore) :
  loaded (vm p) = true ->
  busy_event (drive p) (StateLoad store) = true ->
  let p' := dispatch p (StateLoad store) in
  outcome (handle (StateLoad store)) p = Ok tt /\
  busy (vm p') = true /\
  loaded (vm p') = true /\
  online (vm p') = online (vm p) /\
  emitted (handle (StateLoad store)) p = [].
Proof.
  intros Hl Hb. unfold busy_event in Hb.
  destruct (findRecord (records store) (drive p)) as [r|] eqn:H;
    [|discriminate].
  unfold dispatch, outcome, handle.
  rewrite (emitted_nothing (onStateLoad store) p);
    rewrite (onStateLoad_latched p store r H Hl); simpl; auto.
Qed.

Lemma busy_again_after_idle_witness :
  let p' := dispatch online_panel (StateLoad busy_snapshot) in
  outcome (handle (StateLoad busy_snapshot)) online_panel = Ok tt /\
  busy (vm p') = true /\
  loaded (vm p') = true /\
  online (vm p') = online (vm online_panel) /\
  emitted (handle (StateLoad busy_snapshot)) online_panel = [].
Proof.
  apply (busy_again_after_idle online_panel busy_snapshot); reflexivity.
Defined.

End StateLoad.

(* ================================================================== *)
(** * The latch over a run of events *)
(* ================================================================== *)

Section Latch.
Import DriveStatus Spec Sample.

Local Ltac run_handler :=
  unfold dispatch, handle, call, on_response, run_success, taskDone,
    onLoad, reload, labelMedia, ejectMedia, catalog, readLabel,
    volumeStatistics, cartridgeMemory, driveCommand, showResultWindow,
    bind, get; cbn.

Lemma call_frame (h : string) (p : Panel) :
  drive (fst (call h p)) = drive p /\
  loaded (vm (fst (call h p))) = loaded (vm p).
Proof.
  unfold call.
  repeat match goal with
         | |- context [if String.eqb ?a ?b then _ else _] =>
             destruct (String.eqb a b)
         end; run_handler; auto.
Qed.

(** Only the tape store listener touches the latch, and no handler
    changes the drive of the view. *)
Lemma dispatch_frame (p : Panel) (ev : event) :
  drive (dispatch p ev) = drive p /\
  (match ev with
   | StateLoad _ => True
   | _ => loaded (vm (dispatch p ev)) = loaded (vm p)
   end).
Proof.
  destruct ev as [data | store | t | r resp | w].
  - run_handler.
    destruct (negb (indexOf _ _ =? -1)%Z); cbn; auto.
  - split; [|exact I]. unfold dispatch, handle.
    destruct (findRecord (records store) (drive p)) as [r|] eqn:H.
    + destruct (loaded (vm p)) eqn:Hl.
      * now rewrite (onStateLoad_latched p store r H Hl).
      * destruct (truthy (state r)) eqn:Hb.
        -- now rewrite (onStateLoad_busy p store r H Hl Hb).
        -- now rewrite (onStateLoad_idle p store r H Hl Hb).
    + now rewrite (onStateLoad_missing p store H).
  - unfold dispatch. cbn [handle]. unfold bind, get. cbn beta iota.
    destruct (button_named t) as [b|]; [|cbn; auto].
    destruct (enabled (vm p) b); [|cbn; auto].
    apply call_frame.
  - destruct r as [di c wt me []]; destruct resp as [data|st];
      run_handler; auto.
  - destruct w as [x | u [[]|] | u [[]|] | k x]; run_handler; auto.
Qed.

Lemma dispatch_drive (p : Panel) (ev : event) :
  drive (dispatch p ev) = drive p.
Proof. apply dispatch_frame. Qed.

(** The tape store listener on one event, by the event's kind. *)
Lemma listener_step (p : Panel) (store : tapestore) :
  let ev := StateLoad store in
  let n f := List.length (filter f (emitted (handle ev) p)) in
  if loaded (vm p) then
    loaded (vm (dispatch p ev)) = true /\ n is_reload = 0 /\ n is_unmask = 0
  else if idle_event (drive p) ev then
    loaded (vm (dispatch p ev)) = true /\ n is_reload = 1 /\ n is_unmask = 1
  else
    loaded (vm (dispatch p ev)) = false /\ n is_reload = 0 /\ n is_unmask = 0.
Proof.
  cbv zeta. unfold idle_event, dispatch, handle.
  destruct (findRecord (records store) (drive p)) as [r|] eqn:H.
  - destruct (loaded (vm p)) eqn:Hl.
    + rewrite (emitted_nothing (onStateLoad store) p);
        rewrite (onStateLoad_latched p store r H Hl); cbn; auto.
    + destruct (truthy (state r)) eqn:Hb; cbn [negb].
      * rewrite (emitted_trace (onStateLoad store) p
                   [SetTimeout (Mask (lookup "statusgrid") "Drive is busy") 10]);
          rewrite (onStateLoad_busy p store r H Hl Hb); cbn; auto.
      * rewrite (emitted_trace (onStateLoad store) p
                   [SetTimeout (Unmask (lookup "statusgrid")) 10;
                    RstoreLoad "statusgrid"]);
          rewrite (onStateLoad_idle p store r H Hl Hb); cbn; auto.
        now rewrite <- app_assoc.
  - rewrite (emitted_nothing (onStateLoad store) p);
      rewrite (onStateLoad_missing p store H); cbn; auto.
    destruct (loaded (vm p)); auto.
Qed.

(** Once the latch is set it stays set, and the listener neither reloads
    nor unmasks any more. *)
Lemma latched_run (evs : list event) : forall p : Panel,
  loaded (vm p) = true ->
  listener_counts is_reload p evs = map (fun _ => 0) evs /\
  listener_counts is_unmask p evs = map (fun _ => 0) evs /\
  latch_marks p evs = map (fun _ => true) evs.
Proof.
  induction evs as [|ev evs IH]; intros p Hl; [now cbn|].
  assert (Hl' : loaded (vm (dispatch p ev)) = true).
  { destruct ev as [data | store | t | r resp | w];
      try (pose proof (dispatch_frame p (StateLoad store)) as _;
           pose proof (listener_step p store) as Hs; cbv zeta in Hs;
           rewrite Hl in Hs; tauto);
      match goal with
      | |- loaded (vm (dispatch p ?e)) = true =>
          pose proof (proj2 (dispatch_frame p e)) as Hf; cbn in Hf;
          now rewrite Hf
      end. }
  destruct (IH _ Hl') as (IHr & IHu & IHm).
  cbn [listener_counts latch_marks map]. rewrite IHr, IHu, IHm, Hl'.
  destruct ev as [data | store | t | r resp | w]; auto.
  pose proof (listener_step p store) as Hs. cbv zeta in Hs.
  rewrite Hl in Hs. destruct Hs as (_ & -> & ->). auto.
Qed.

(** Until the latch is set, the listener reloads and unmasks exactly on
    the first idle snapshot, which sets the latch. *)
Lemma unlatched_run (evs : list event) : forall p : Panel,
  loaded (vm p) = false ->
  listener_counts is_reload p evs =
    map Nat.b2n (first_idle_marks (drive p) evs) /\
  listener_counts is_unmask p evs =
    map Nat.b2n (first_idle_marks (drive p) evs) /\
  latch_marks p evs = idle_seen_marks (drive p) evs.
Proof.
  induction evs as [|ev evs IH]; intros p Hl; [now cbn|].
  cbn [listener_counts latch_marks first_idle_marks idle_seen_marks].
  destruct ev as [data | store | t | r resp | w];
    try (match goal with
         | |- context [dispatch p ?e] =>
             pose proof (dispatch_frame p e) as [Hd Hf]; cbn in Hf;
             rewrite Hl in Hf;
             destruct (IH _ Hf) as (IHr & IHu & IHm);
             rewrite Hd in IHr, IHu, IHm
         end;
         cbn [idle_event map Nat.b2n]; rewrite IHr, IHu, IHm, Hf;
         now auto).
  pose proof (listener_step p store) as Hs. cbv zeta in Hs.
  rewrite Hl in Hs.
  destruct (idle_event (drive p) (StateLoad store));
    destruct Hs as (Hl' & -> & ->); rewrite Hl'.
  - destruct (latched_run evs _ Hl') as (-> & -> & ->).
    cbn [map Nat.b2n]. rewrite !map_map. auto.
  - destruct (IH _ Hl') as (IHr & IHu & IHm).
    rewrite dispatch_drive in IHr, IHu, IHm.
    cbn [map Nat.b2n]. rewrite IHr, IHu, IHm. auto.
Qed.

Lemma first_idle_marks_sum (d : jsstring) (evs : list event) :
  list_sum (map Nat.b2n (first_idle_marks d evs)) =
  Nat.b2n (existsb (idle_event d) evs).
Proof.
  assert (Hz : forall l : list event,
             list_sum (map Nat.b2n (map (fun _ => false) l)) = 0)
    by (induction l; cbn; auto).
  induction evs as [|ev evs IH]; [reflexivity|].
  cbn [first_idle_marks existsb]. destruct (idle_event d ev); cbn.
  - now rewrite Hz.
  - exact IH.
Qed.

(** C4. Over any run of events of a panel from its creation, the tape
    store listener reloads the status grid and schedules its unmask on
    exactly one event, the first snapshot that shows the drive idle, and
    on no other event; the [loaded] latch is false before that event and
    true from it on.  So the reload fires once in a run that has an idle
    snapshot (never in a run that has none), and for the snapshots
    [busy, busy, idle, busy, idle] it fires on the third only. *)
Theorem auto_reload_once (d : jsstring) (evs : list event) :
  let p := create d in
  listener_counts is_reload p evs = map Nat.b2n (first_idle_marks d evs) /\
  listener_counts is_unmask p evs = map Nat.b2n (first_idle_marks d evs) /\
  latch_marks p evs = idle_seen_marks d evs /\
  list_sum (listener_counts is_reload p evs) =
    Nat.b2n (existsb (idle_event d) evs) /\
  (let sample := map StateLoad [busy_snapshot; busy_snapshot; idle_snapshot;
                                busy_snapshot; idle_snapshot] in
   listener_counts is_reload (create drv0) sample = [0; 0; 1; 0; 0] /\
   listener_counts is_unmask (create drv0) sample = [0; 0; 1; 0; 0] /\
   latch_marks (create drv0) sample = [false; false; true; true; true]).
Proof.
  cbv zeta.
  destruct (unlatched_run evs (create d) eq_refl) as (Hr & Hu & Hm).
  cbn [drive create] in Hr, Hu, Hm.
  repeat split; auto.
  rewrite Hr. apply first_idle_marks_sum.
Qed.

End Latch.

(* ================================================================== *)
(** * Splitting the status text *)
(* ================================================================== *)

Section Tokens.
Import Spec.

Abbreviation nonspace := (fun c : N => is_space c = false).

(** The two alternatives of the separator are the same expression. *)
Lemma separator_space_plus (s : jsstring) : separator s = space_plus s.
Proof. unfold separator. now destruct (space_plus s). Qed.

Lemma skip_space_length (s : jsstring) :
  List.length (skip_space s) <= List.length s.
Proof.
  induction s as [|c s IH]; simpl; [lia|].
  destruct (is_space c); simpl; lia.
Qed.

Lemma last_in {A} (l : list A) (d : A) : l <> [] -> In (last l d) l.
Proof.
  induction l as [|x l IH]; [congruence|]. intros _.
  destruct l as [|y l]; [now left|].
  right. apply IH. discriminate.
Qed.

Lemma last_app_nonempty {A} (a b : list A) (d : A) :
  b <> [] -> last (a ++ b) d = last b d.
Proof.
  intros Hb. induction a as [|x a IH]; [reflexivity|].
  simpl. rewrite IH. destruct (a ++ b) eqn:E; [|reflexivity].
  apply app_eq_nil in E as [_ ->]. now elim Hb.
Qed.

(** A boundary made of a character of [l] cannot lie in a run without
    white space. *)
Lemma bounded_left_nonspace (l : jsstring) :
  Forall nonspace l -> bounded_left l -> l = [].
Proof.
  intros Hl [-> | Hs]; [reflexivity|].
  destruct l as [|x l]; [reflexivity|].
  rewrite Forall_forall in Hl.
  rewrite (Hl (last (x :: l) 0%N)) in Hs by (apply last_in; discriminate).
  discriminate.
Qed.

Lemma bounded_right_nonspace (l : jsstring) :
  Forall nonspace l -> bounded_right l -> l = [].
Proof.
  intros Hl [-> | Hs]; [reflexivity|].
  destruct l as [|x l]; [reflexivity|].
  apply Forall_inv in Hl. simpl in Hs. congruence.
Qed.

Lemma ws_token_drop_space (c : N) (r t : jsstring) :
  is_space c = true -> (ws_token (c :: r) t <-> ws_token r t).
Proof.
  intros Hc. split; intros (Hne & Hns & pre & post & Heq & Hl & Hr);
    (split; [assumption | split; [assumption|]]).
  - destruct pre as [|x pre].
    + destruct t as [|y t]; [now elim Hne|].
      injection Heq as <- _. apply Forall_inv in Hns. congruence.
    + injection Heq as _ ->. exists pre, post.
      split; [reflexivity | split; [|assumption]].
      destruct pre as [|z pre]; [now left | right].
      destruct Hl as [Hl | Hl]; [discriminate | exact Hl].
  - exists (c :: pre), post. subst r.
    split; [reflexivity | split; [|assumption]].
    right. destruct pre as [|z pre]; [exact Hc|].
    destruct Hl as [Hl | Hl]; [discriminate | exact Hl].
Qed.

Lemma ws_token_skip_space (s t : jsstring) :
  ws_token s t <-> ws_token (skip_space s) t.
Proof.
  induction s as [|c s IH]; simpl; [reflexivity|].
  destruct (is_space c) eqn:Hc; [|reflexivity].
  now rewrite ws_token_drop_space.
Qed.

(** A string without white space is its own single token. *)
Lemma ws_token_nonspace (s t : jsstring) :
  Forall nonspace s -> (ws_token s t <-> t = s /\ s <> []).
Proof.
  intros Hs. split.
  - intros (Hne & Hns & pre & post & Heq & Hl & Hr). subst s.
    apply Forall_app in Hs as [Hpre Hs]. apply Forall_app in Hs as [_ Hpost].
    rewrite (bounded_left_nonspace pre Hpre Hl).
    rewrite (bounded_right_nonspace post Hpost Hr).
    simpl. rewrite app_nil_r. auto.
  - intros [-> Hne]. split; [assumption | split; [assumption|]].
    exists [], []. simpl. rewrite app_nil_r.
    split; [reflexivity | split; now left].
Qed.

(** The tokens of a run without white space followed by white space: the
    run itself, and the tokens of what follows. *)
Lemma ws_token_piece (piece : jsstring) (c : N) (r t : jsstring) :
  Forall nonspace piece -> is_space c = true ->
  (ws_token (piece ++ c :: r) t <->
   (t = piece /\ piece <> []) \/ ws_token (c :: r) t).
Proof.
  intros Hp Hc. split.
  - intros (Hne & Hns & pre & post & Heq & Hl & Hr).
    destruct Hl as [-> | Hl].
    + simpl in Heq. left.
      apply app_eq_app in Heq as [l [[Hpiece Hpost] | [Ht Hcr]]].
      * subst piece. apply Forall_app in Hp as [_ Hl].
        assert (l = []) as ->.
        { apply (bounded_right_nonspace l Hl).
          destruct l as [|y l]; [now left | right].
          subst post. destruct Hr as [Hr | Hr]; [discriminate | exact Hr]. }
        rewrite app_nil_r. auto.
      * subst t. apply Forall_app in Hns as [_ Hl].
        destruct l as [|y l]; [rewrite app_nil_r in *; auto|].
        injection Hcr as <- _. apply Forall_inv in Hl. congruence.
    + assert (Hpre : pre <> []) by (intros ->; discriminate).
      apply app_eq_app in Heq as [l [[Hpiece Htp] | [Hq Hcr]]].
      * subst piece. apply Forall_app in Hp as [Hp _].
        rewrite (bounded_left_nonspace pre Hp (or_intror Hl)) in Hpre.
        now elim Hpre.
      * destruct l as [|y l].
        -- rewrite app_nil_r in Hq. subst pre.
           rewrite (bounded_left_nonspace piece Hp (or_intror Hl)) in Hpre.
           now elim Hpre.
        -- right. split; [assumption | split; [assumption|]].
           exists (y :: l), post.
           split; [assumption | split; [|assumption]].
           right. subst pre. now rewrite last_app_nonempty in Hl.
  - intros [[-> Hne] | (Hne & Hns & pre & post & Heq & Hl & Hr)].
    + split; [assumption | split; [assumption|]].
      exists [], (c :: r). split; [reflexivity | split; [now left | now right]].
    + split; [assumption | split; [assumption|]].
      exists (piece ++ pre), post. rewrite Heq, <- app_assoc.
      split; [reflexivity | split; [|assumption]].
      destruct pre as [|z pre].
      * destruct t as [|y t]; [now elim Hne|].
        injection Heq as <- _. apply Forall_inv in Hns. congruence.
      * right. rewrite last_app_nonempty by discriminate.
        destruct Hl as [Hl | Hl]; [discriminate | exact Hl].
Qed.

(** The pieces of the split that are not empty are the tokens: the loop,
    with enough fuel, on a current piece without white space. *)
Lemma split_loop_tokens (fuel : nat) :
  forall piece rest t,
    List.length rest <= fuel ->
    Forall nonspace piece ->
    (In t (split_loop separator fuel piece rest) /\ t <> [] <->
     ws_token (piece ++ rest) t).
Proof.
  induction fuel as [|fuel IH]; intros piece rest t Hf Hp;
    destruct rest as [|c r]; simpl in Hf; try lia.
  1, 2: cbn [split_loop]; rewrite app_nil_r, ws_token_nonspace by assumption;
    cbn [In]; intuition congruence.
  cbn [split_loop]. rewrite separator_space_plus. unfold space_plus.
  destruct (is_space c) eqn:Hc.
  - rewrite ws_token_piece, ws_token_drop_space by assumption.
    rewrite (ws_token_skip_space r).
    specialize (IH [] (skip_space r) t).
    cbn [app] in IH. rewrite <- IH;
      [| pose proof (skip_space_length r); lia | constructor].
    cbn [In]. intuition congruence.
  - specialize (IH (piece ++ [c]) r t).
    rewrite <- app_assoc in IH. cbn [app] in IH. apply IH; [lia|].
    apply Forall_app. split; [assumption | now constructor].
Qed.

Lemma split_tokens (s t : jsstring) :
  In t (split separator s) /\ t <> [] <-> ws_token s t.
Proof.
  unfold split. now rewrite split_loop_tokens.
Qed.

Lemma indexOf_lower (a : list jsstring) (x : jsstring) :
  (-1 <= indexOf a x)%Z.
Proof.
  induction a as [|y a IH]; simpl; [lia|].
  destruct (str_eqb y x); [lia|].
  destruct (indexOf a x =? -1)%Z eqn:E; lia.
Qed.

Lemma indexOf_found (a : list jsstring) (x : jsstring) :
  (indexOf a x =? -1)%Z = false <-> In x a.
Proof.
  induction a as [|y a IH]; simpl.
  - split; [discriminate | tauto].
  - destruct (str_eqb y x) eqn:E.
    + apply str_eqb_eq in E. split; [auto | reflexivity].
    + apply str_eqb_neq in E. pose proof (indexOf_lower a x) as Hlow.
      destruct (indexOf a x =? -1)%Z eqn:F.
      * split; [discriminate|]. intros [H | H]; [contradiction|].
        apply IH in H. discriminate.
      * split; [intros _; right; now apply IH|]. intros _.
        apply Z.eqb_neq in F. apply Z.eqb_neq. lia.
Qed.

End Tokens.

(* ================================================================== *)
(** * The status grid listener *)
(* ================================================================== *)

Section StatusLoad.
Import DriveStatus Spec Sample.

(** The flag [onLoad] computes from the rows of a status snapshot. *)
Lemma status_load_run (p : Panel) (data : rows) :
  let on := negb (indexOf (split separator (status_text (field data "status")))
                          (lit "ONLINE") =? -1)%Z in
  handle (StatusLoad data) p =
    (fst (vm_set_online on (set_store "statusgrid" data p)),
     if on then Ok tt else Throw (TypeError "cartridgegrid")).
Proof.
  cbv zeta. unfold handle, onLoad, bind, get, field. cbn.
  destruct (negb (indexOf _ _ =? -1)%Z); reflexivity.
Qed.

Lemma status_load_online (p : Panel) (data : rows) :
  online (vm (dispatch p (StatusLoad data))) =
  negb (indexOf (split separator (status_text (field data "status")))
                (lit "ONLINE") =? -1)%Z.
Proof.
  unfold dispatch. pose proof (status_load_run p data) as H.
  cbv zeta in H. now rewrite H.
Qed.

(** C3. On every load of the status grid the listener sets [online] to
    true iff ["ONLINE"] is one of the tokens of the snapshot's [status]
    text, the tokens being its maximal runs of characters other than
    white space (an absent status counts as the empty text); the status
    ["ONLINE READY"] gives [online = true] and ["OFFLINE"] gives
    [online = false]. *)
Theorem online_iff_token (p : Panel) (data : rows) :
  (online (vm (dispatch p (StatusLoad data))) = true <->
     ws_token (status_text (field data "status")) (lit "ONLINE")) /\
  online (vm (dispatch p (StatusLoad (status_rows "ONLINE READY")))) = true /\
  online (vm (dispatch p (StatusLoad (status_rows "OFFLINE")))) = false.
Proof.
  rewrite !status_load_online. split; [|split; reflexivity].
  rewrite negb_true_iff, indexOf_found, <- split_tokens.
  split; [intros H; split; [exact H | discriminate] | tauto].
Qed.

(** What the listener does when the status text has no [ONLINE] token:
    [online] is cleared, then the look-up of [cartridgegrid] in the view
    finds nothing and the call on its result raises a TypeError. *)
Lemma status_load_offline (p : Panel) (data : rows) :
  online (vm (dispatch p (StatusLoad data))) = false ->
  outcome (handle (StatusLoad data)) p = Throw (TypeError "cartridgegrid").
Proof.
  rewrite status_load_online. intros H. unfold outcome.
  pose proof (status_load_run p data) as Hr. cbv zeta in Hr.
  rewrite Hr, H. reflexivity.
Qed.

(** C8 (the listener departs from the claim).  The panel of [drv0] is on
    line and receives the status ["OFFLINE"]: the view declares no
    component under the reference [cartridgegrid], so the listener, after
    clearing [online], raises a TypeError where it means to empty the
    cartridge listing, and no store is emptied. *)
Theorem offline_load_throws :
  online (vm online_panel) = true /\
  lookup "cartridgegrid" = None /\
  handle (StatusLoad (status_rows "OFFLINE")) online_panel =
    (fst (vm_set_online false
            (set_store "statusgrid" (status_rows "OFFLINE") online_panel)),
     Throw (TypeError "cartridgegrid")) /\
  stores (dispatch online_panel (StatusLoad (status_rows "OFFLINE"))) =
    [("statusgrid", status_rows "OFFLINE")].
Proof. repeat split. Qed.

End StatusLoad.

(* ================================================================== *)
(** * Commands *)
(* ================================================================== *)

Section Commands.
Import DriveStatus Spec Sample.

Lemma task_handles_app (ws : list window) (w : window) :
  filter is_task_handle (ws ++ [w]) =
  filter is_task_handle ws ++ (if is_task_handle w then [w] else []).
Proof. rewrite filter_app. reflexivity. Qed.

(** C6. [readLabel] only sends the [read-label] request; whatever the
    response, handling it creates no task handle and makes no outside
    call but a failure notice, so nothing reloads.  [ejectMedia] only
    sends the [eject-media] request; handling a successful response
    creates one task handle, a progress window on the returned task
    identifier, and each completion event of that handle makes exactly
    one outside call, the reload of the status grid.  A failed
    [eject-media] request creates no task handle and reloads nothing. *)
Theorem command_shapes (p q : Panel) (resp : response) (upid : jsval)
        (htmlStatus : string) :
  let read := {| driveid := drive p; command := "read-label";
                 waitMsgTarget := "view"; method := None;
                 success := ShowMediaLabelWindow |} in
  let eject := {| driveid := drive p; command := "eject-media";
                  waitMsgTarget := "view"; method := Some "POST";
                  success := EjectSuccess |} in
  let handle_of := TaskProgress upid (Some ReloadOnDone) in
  (* read-label *)
  (emitted readLabel p = [ApiRequest read] /\
   windows (fst (readLabel p)) = windows p /\
   filter is_task_handle (windows (dispatch q (Response read resp))) =
     filter is_task_handle (windows q) /\
   existsb is_reload (emitted (handle (Response read resp)) q) = false) /\
  (* eject-media *)
  (emitted ejectMedia p = [ApiRequest eject] /\
   windows (fst (ejectMedia p)) = windows p /\
   windows (dispatch q (Response eject (Success upid))) =
     windows q ++ [handle_of] /\
   is_task_handle handle_of = true /\
   emitted (handle (Response eject (Success upid))) q = [] /\
   emitted (handle (TaskDone handle_of)) q = [RstoreLoad "statusgrid"] /\
   windows (dispatch q (Response eject (Failure htmlStatus))) = windows q /\
   emitted (handle (Response eject (Failure htmlStatus))) q =
     [FailureNotice htmlStatus]).
Proof.
  cbv zeta. split.
  - split; [now apply emitted_trace | split; [reflexivity|]].
    destruct resp as [data | st]; cbn.
    + rewrite task_handles_app, app_nil_r. split; [reflexivity|].
      now rewrite emitted_nothing.
    + split; [reflexivity|].
      now rewrite (emitted_trace _ q [FailureNotice st]).
  - repeat split; try (now apply emitted_trace); now apply emitted_nothing.
Qed.

End Commands.

(* ================================================================== *)
(** * Events that are not snapshots *)
(* ================================================================== *)

Section QuietEvents.
Import DriveStatus Spec Sample Observe.

Local Ltac run_method :=
  unfold dispatch, outcome, handle, call, on_response, run_success, taskDone,
    reload, labelMedia, ejectMedia, catalog, readLabel,
    volumeStatistics, cartridgeMemory, driveCommand, showResultWindow,
    bind, get; cbn.

(** The button found under a text is one of the seven of the tool bar. *)
Lemma button_named_cases (t : string) (b : button) :
  button_named t = Some b -> In b tbar /\ text b = t.
Proof.
  unfold button_named. intros H. apply find_some in H as [Hin Ht].
  split; [assumption | now apply String.eqb_eq].
Qed.

Lemma tbar_handler_quiet (b : button) (p : Panel) :
  In b tbar ->
  outcome (call (handler b)) p = Ok tt /\
  vm (fst (call (handler b) p)) = vm p /\
  drive (fst (call (handler b) p)) = drive p /\
  stores (fst (call (handler b) p)) = stores p.
Proof.
  intros Hin. unfold tbar in Hin. cbn [In] in Hin.
  repeat (destruct Hin as [<- | Hin]; [now run_method|]).
  contradiction.
Qed.

Lemma quiet_frame (p : Panel) (ev : event) :
  is_status_load ev = false ->
  is_state_load ev = false ->
  outcome (handle ev) p = Ok tt /\
  vm (dispatch p ev) = vm p /\
  drive (dispatch p ev) = drive p /\
  stores (dispatch p ev) = stores p.
Proof.
  destruct ev as [data | store | t | r resp | w]; try discriminate;
    intros _ _.
  - unfold dispatch, outcome. cbn [handle]. unfold bind, get. cbn beta iota.
    destruct (button_named t) as [b|] eqn:Hb; [|now cbn].
    destruct (enabled (vm p) b); [|now cbn].
    apply tbar_handler_quiet. now apply (button_named_cases t b).
  - destruct r as [di c wt me []]; destruct resp as [data|st];
      now run_method.
  - destruct w as [x | u [[]|] | u [[]|] | k x]; now run_method.
Qed.

(** X1. A click, a response and a task completion never raise, and they
    leave the view model, the drive of the view and the stores as they
    are: the flags change on snapshot events only. *)
Theorem quiet_events_keep_flags (p : Panel) (ev : event) :
  is_status_load ev = false ->
  is_state_load ev = false ->
  outcome (handle ev) p = Ok tt /\
  vm (dispatch p ev) = vm p /\
  drive (dispatch p ev) = drive p /\
  stores (dispatch p ev) = stores p.
Proof. apply quiet_frame. Qed.

Lemma quiet_events_keep_flags_witness :
  vm (dispatch online_panel (Click "Eject")) = vm online_panel.
Proof.
  apply (quiet_events_keep_flags online_panel (Click "Eject"));
    reflexivity.
Defined.

(** X2. With [online] false a click on any button but Reload does
    nothing at all, so no command request leaves an off-line panel; with
    [busy] true a click on Reload does nothing. *)
Theorem gated_clicks_do_nothing (p : Panel) (t : string) :
  (if String.eqb t "Reload" then busy (vm p) else negb (online (vm p)))
    = true ->
  handle (Click t) p = (p, Ok tt).
Proof.
  intros Hg. cbn [handle]. unfold bind, get. cbn beta iota.
  destruct (button_named t) as [b|] eqn:Hb; [|reflexivity].
  destruct (button_named_cases t b Hb) as [Hin Ht]. subst t.
  assert (He : enabled (vm p) b = false).
  { unfold tbar in Hin. cbn [In] in Hin.
    destruct (vm p) as [o bu l]. cbn in Hg.
    repeat (destruct Hin as [<- | Hin];
            [cbn in Hg |- *; destruct o, bu; cbn in Hg |- *; congruence|]).
    contradiction. }
  now rewrite He.
Qed.

Lemma gated_clicks_do_nothing_witness :
  handle (Click "Eject") (create drv0) = (create drv0, Ok tt).
Proof.
  apply (gated_clicks_do_nothing (create drv0) "Eject"). reflexivity.
Defined.

(** X3. With [online] true a click on one of the five command buttons
    makes exactly one outside call, the request of that button's command
    for the drive of the view, and changes nothing else. *)
Theorem command_click_sends_request (p : Panel) (t : string) (r : request) :
  online (vm p) = true ->
  In (t, r) (command_buttons (drive p)) ->
  handle (Click t) p = (fst (emit (ApiRequest r) p), Ok tt).
Proof.
  intros Ho Hin. unfold command_buttons in Hin. cbn [In] in Hin.
  destruct p as [d [o bu l] st w tr]. cbn in Ho. subst o.
  repeat (destruct Hin as [Hin | Hin];
          [injection Hin as <- <-; reflexivity|]).
  contradiction.
Qed.

Lemma command_click_sends_request_witness :
  emitted (handle (Click "Catalog")) online_panel =
    [ApiRequest (command_request drv0 "catalog" (Some "POST") CatalogSuccess)].
Proof.
  unfold emitted.
  rewrite (command_click_sends_request online_panel "Catalog"
             (command_request drv0 "catalog" (Some "POST") CatalogSuccess)).
  - reflexivity.
  - reflexivity.
  - right; left; reflexivity.
Defined.

(** X4. A successful response to the request of a command button sent
    with POST (eject, catalog) opens exactly one window and makes no
    outside call: a task handle on the returned task identifier, the
    progress window for eject and the task viewer for catalog.  Each
    completion event of that handle makes exactly one outside call, the
    reload of the status grid. *)
Theorem response_window (q q' : Panel) (t : string) (r : request)
        (upid : jsval) :
  In (t, r) (command_buttons (drive q)) ->
  is_post r = true ->
  let w := if String.eqb t "Eject"
           then TaskProgress upid (Some ReloadOnDone)
           else TaskViewer upid (Some ReloadOnDone) in
  windows (dispatch q (Response r (Success upid))) = windows q ++ [w] /\
  emitted (handle (Response r (Success upid))) q = [] /\
  is_task_handle w = true /\
  emitted (handle (TaskDone w)) q' = [RstoreLoad "statusgrid"].
Proof.
  intros Hin Hp. unfold command_buttons in Hin. cbn [In] in Hin.
  repeat (destruct Hin as [Hin | Hin];
          [injection Hin as <- <-; vm_compute in Hp;
           first [ discriminate Hp
                 | cbv zeta; cbn [String.eqb Ascii.eqb Bool.eqb];
                   split; [reflexivity|];
                   split; [now apply emitted_nothing|];
                   split; [reflexivity|];
                   now apply emitted_trace ] |]).
  contradiction.
Qed.

Lemma response_window_witness :
  windows (dispatch online_panel
             (Response (command_request drv0 "catalog" (Some "POST")
                                        CatalogSuccess)
                       (Success (JStr (lit "UPID:1"))))) =
    windows online_panel ++
    [TaskViewer (JStr (lit "UPID:1")) (Some ReloadOnDone)].
Proof.
  apply (response_window online_panel online_panel "Catalog"
           (command_request drv0 "catalog" (Some "POST") CatalogSuccess)
           (JStr (lit "UPID:1"))).
  - right; left; reflexivity.
  - reflexivity.
Defined.

End QuietEvents.

(* ================================================================== *)
(** * The two snapshot streams over a run *)
(* ================================================================== *)

Section Streams.
Import DriveStatus Spec Sample Observe.

(** The tape store listener in one equation. *)
Lemma onStateLoad_run (p : Panel) (store : tapestore) :
  onStateLoad store p =
    match findRecord (records store) (drive p) with
    | None => (p, Throw (TypeError "driveRecord"))
    | Some r =>
        (fst ((vm_set_busy (truthy (state r)) ;;
               if loaded (vm p) then ret tt
               else if truthy (state r) then
                 emit (SetTimeout (Mask (lookup "statusgrid") "Drive is busy") 10)
               else
                 emit (SetTimeout (Unmask (lookup "statusgrid")) 10) ;;
                 emit (RstoreLoad "statusgrid") ;;
                 vm_set_loaded true) p), Ok tt)
    end.
Proof.
  destruct (findRecord (records store) (drive p)) as [r|] eqn:H.
  - destruct (loaded (vm p)) eqn:Hl.
    + now rewrite (onStateLoad_latched p store r H Hl).
    + destruct (truthy (state r)) eqn:Hb.
      * now rewrite (onStateLoad_busy p store r H Hl Hb).
      * now rewrite (onStateLoad_idle p store r H Hl Hb).
  - now apply onStateLoad_missing.
Qed.

Lemma run_app (p : Panel) (evs evs' : list event) :
  run p (evs ++ evs') = run (run p evs) evs'.
Proof. apply fold_left_app. Qed.

Lemma run_drive (evs : list event) : forall p, drive (run p evs) = drive p.
Proof.
  induction evs as [|ev evs IH]; intros p; [reflexivity|].
  cbn [run fold_left]. fold (run (dispatch p ev) evs).
  now rewrite IH, dispatch_drive.
Qed.

Lemma dispatch_keeps_latch (p : Panel) (ev : event) :
  loaded (vm p) = true -> loaded (vm (dispatch p ev)) = true.
Proof.
  intros Hl. destruct ev as [data | store | t | r resp | w].
  2: { pose proof (listener_step p store) as Hs. cbv zeta in Hs.
       rewrite Hl in Hs. tauto. }
  all: match goal with
       | |- loaded (vm (dispatch ?q ?e)) = true =>
           pose proof (proj2 (dispatch_frame q e)) as Hf; cbn in Hf;
           now rewrite Hf
       end.
Qed.

(** X5. The latch is never reset: once [loaded] is true it is true after
    any further run of events. *)
Theorem latch_never_reset (evs : list event) (p : Panel) :
  loaded (vm p) = true -> loaded (vm (run p evs)) = true.
Proof.
  revert p. induction evs as [|ev evs IH]; intros p Hl; [exact Hl|].
  cbn [run fold_left]. fold (run (dispatch p ev) evs).
  apply IH. now apply dispatch_keeps_latch.
Qed.

Lemma latch_never_reset_witness :
  loaded (vm (run online_panel
                  [StateLoad busy_snapshot; StatusLoad (status_rows "OFFLINE");
                   StateLoad other_snapshot; Click "Reload"])) = true.
Proof.
  apply (latch_never_reset _ online_panel). reflexivity.
Defined.

(** X6. The listeners of the two pollers commute: a tape store snapshot
    followed by a status snapshot leaves the panel in the same state as the
    two in the other order, whether or not a listener raises. *)
Theorem pollers_commute (p : Panel) (store : tapestore) (data : rows) :
  run p [StateLoad store; StatusLoad data] =
  run p [StatusLoad data; StateLoad store].
Proof.
  cbn [run fold_left]. unfold dispatch.
  pose proof (status_load_run p data) as H1. cbv zeta in H1. rewrite H1.
  pose proof (status_load_run (fst (handle (StateLoad store) p)) data) as H2.
  cbv zeta in H2. rewrite H2. clear H1 H2.
  cbn [handle]. rewrite !onStateLoad_run.
  destruct p as [d [o b l] st w tr]. cbn [fst drive vm_set_online modify with_vm
                                        set_store].
  destruct (findRecord (records store) d) as [r|]; [|reflexivity].
  destruct l, (truthy (state r)); reflexivity.
Qed.

Lemma online_flag_token (s : jsstring) :
  negb (indexOf (split separator s) (lit "ONLINE") =? -1)%Z = true <->
  ws_token s (lit "ONLINE").
Proof.
  rewrite negb_true_iff, indexOf_found, <- split_tokens.
  split; [intros H; split; [exact H | discriminate] | tauto].
Qed.

Lemma online_frame (p : Panel) (ev : event) :
  is_status_load ev = false ->
  online (vm (dispatch p ev)) = online (vm p).
Proof.
  destruct ev as [data | store | t | r resp | w]; try discriminate; intros _.
  2-4: match goal with
       | |- online (vm (dispatch ?q ?e)) = _ =>
           now destruct (quiet_frame q e eq_refl eq_refl) as (_ & -> & _)
       end.
  unfold dispatch. cbn [handle]. rewrite onStateLoad_run.
  destruct (findRecord (records store) (drive p)) as [r|]; [|reflexivity].
  unfold bind. cbn. destruct (loaded (vm p)); [reflexivity|].
  now destruct (truthy (state r)).
Qed.

Lemma busy_frame (p : Panel) (ev : event) :
  lists_drive (drive p) ev = false ->
  busy (vm (dispatch p ev)) = busy (vm p).
Proof.
  destruct ev as [data | store | t | r resp | w]; cbn [lists_drive].
  3-5: intros _;
       match goal with
       | |- busy (vm (dispatch ?q ?e)) = _ =>
           now destruct (quiet_frame q e eq_refl eq_refl) as (_ & -> & _)
       end.
  - intros _. unfold dispatch.
    pose proof (status_load_run p data) as H. cbv zeta in H. now rewrite H.
  - destruct (findRecord (records store) (drive p)) as [r|] eqn:H;
      [discriminate|]. intros _. unfold dispatch. cbn [handle].
    now rewrite (onStateLoad_missing p store H).
Qed.

(** X7. The latest status snapshot wins: after any run of events,
    [online] is true iff the status text of the last status snapshot of
    the run has the token ["ONLINE"]; no other event changes the flag. *)
Theorem online_latest_wins (p : Panel) (evs others : list event)
        (data : rows) :
  forallb (fun ev => negb (is_status_load ev)) others = true ->
  (online (vm (run p (evs ++ StatusLoad data :: others))) = true <->
   ws_token (status_text (field data "status")) (lit "ONLINE")).
Proof.
  intros Ho. rewrite run_app. cbn [run fold_left].
  fold (run (dispatch (run p evs) (StatusLoad data)) others).
  rewrite <- online_flag_token, <- (status_load_online (run p evs) data).
  generalize (dispatch (run p evs) (StatusLoad data)). clear p evs.
  induction others as [|ev others IH]; intros q; [reflexivity|].
  cbn [forallb] in Ho. apply andb_true_iff in Ho as [Hev Ho].
  cbn [run fold_left]. fold (run (dispatch q ev) others).
  rewrite (IH Ho). rewrite online_frame; [reflexivity|].
  now apply negb_true_iff.
Qed.

Lemma online_latest_wins_witness :
  online (vm (run (create drv0)
                  ([StatusLoad (status_rows "OFFLINE")] ++
                   StatusLoad (status_rows "ONLINE") ::
                   [StateLoad busy_snapshot; Click "Reload"]))) = true.
Proof.
  apply (online_latest_wins (create drv0) [StatusLoad (status_rows "OFFLINE")]
           [StateLoad busy_snapshot; Click "Reload"] (status_rows "ONLINE")).
  - reflexivity.
  - apply online_flag_token. reflexivity.
Defined.

(** X8. The latest tape store snapshot that lists the drive wins: after
    any run of events, [busy] is what the last such snapshot says; the
    snapshots that do not list the drive and all other events leave the
    flag as it is. *)
Theorem busy_latest_wins (p : Panel) (evs others : list event)
        (store : tapestore) (r : device) :
  findRecord (records store) (drive p) = Some r ->
  forallb (fun ev => negb (lists_drive (drive p) ev)) others = true ->
  busy (vm (run p (evs ++ StateLoad store :: others))) = truthy (state r).
Proof.
  intros Hr Ho. rewrite run_app. cbn [run fold_left].
  fold (run (dispatch (run p evs) (StateLoad store)) others).
  assert (Hb : busy (vm (dispatch (run p evs) (StateLoad store)))
               = truthy (state r)).
  { unfold dispatch. cbn [handle]. rewrite onStateLoad_run, run_drive, Hr.
    unfold bind. cbn. destruct (loaded (vm (run p evs))); [reflexivity|].
    now destruct (truthy (state r)). }
  rewrite <- Hb.
  assert (Hd : drive (dispatch (run p evs) (StateLoad store)) = drive p)
    by now rewrite dispatch_drive, run_drive.
  revert Hd. generalize (dispatch (run p evs) (StateLoad store)). clear Hb.
  induction others as [|ev others IH]; intros q Hd; [reflexivity|].
  cbn [forallb] in Ho. apply andb_true_iff in Ho as [Hev Ho].
  cbn [run fold_left]. fold (run (dispatch q ev) others).
  rewrite (IH Ho) by now rewrite dispatch_drive.
  apply busy_frame. rewrite Hd. now apply negb_true_iff.
Qed.

Lemma busy_latest_wins_witness :
  busy (vm (run (create drv0)
                ([StateLoad idle_snapshot] ++
                 StateLoad busy_snapshot ::
                 [StateLoad other_snapshot;
                  StatusLoad (status_rows "ONLINE")]))) = true.
Proof.
  apply (busy_latest_wins (create drv0) [StateLoad idle_snapshot]
           [StateLoad other_snapshot; StatusLoad (status_rows "ONLINE")]
           busy_snapshot
           {| name := drv0;
              state := JStr (lit "UPID:pbs:0001:eject-media:drv0:root@pam:") |});
    reflexivity.
Defined.

End Streams.

(* ================================================================== *)
(** * Masking and the start of the controller *)
(* ================================================================== *)

Section MaskAndInit.
Import DriveStatus Spec Sample Observe.

(** The masks the tape store listener schedules on one event. *)
Lemma mask_step (p : Panel) (store : tapestore) :
  let ev := StateLoad store in
  List.length (filter is_mask (emitted (handle ev) p)) =
    if loaded (vm p) then 0 else Nat.b2n (busy_event (drive p) ev).
Proof.
  cbv zeta. unfold busy_event. cbn [handle].
  destruct (findRecord (records store) (drive p)) as [r|] eqn:H.
  - destruct (loaded (vm p)) eqn:Hl.
    + rewrite (emitted_nothing (onStateLoad store) p); [reflexivity|].
      now rewrite (onStateLoad_latched p store r H Hl).
    + destruct (truthy (state r)) eqn:Hb.
      * rewrite (emitted_trace (onStateLoad store) p
                   [SetTimeout (Mask (lookup "statusgrid") "Drive is busy") 10]);
          [reflexivity|].
        now rewrite (onStateLoad_busy p store r H Hl Hb).
      * rewrite (emitted_trace (onStateLoad store) p
                   [SetTimeout (Unmask (lookup "statusgrid")) 10;
                    RstoreLoad "statusgrid"]); [reflexivity|].
        rewrite (onStateLoad_idle p store r H Hl Hb). cbn.
        now rewrite <- app_assoc.
  - rewrite (emitted_nothing (onStateLoad store) p).
    + now destruct (loaded (vm p)).
    + now rewrite (onStateLoad_missing p store H).
Qed.

Lemma latched_masks (evs : list event) : forall p : Panel,
  loaded (vm p) = true ->
  listener_counts is_mask p evs = map (fun _ => 0) evs.
Proof.
  induction evs as [|ev evs IH]; intros p Hl; [reflexivity|].
  cbn [listener_counts map].
  rewrite (IH _ (dispatch_keeps_latch p ev Hl)).
  destruct ev as [data | store | t | r resp | w]; try reflexivity.
  pose proof (mask_step p store) as Hm. cbv zeta in Hm.
  now rewrite Hm, Hl.
Qed.

Lemma unlatched_masks (evs : list event) : forall p : Panel,
  loaded (vm p) = false ->
  listener_counts is_mask p evs =
    map Nat.b2n (busy_before_idle_marks (drive p) evs).
Proof.
  induction evs as [|ev evs IH]; intros p Hl; [reflexivity|].
  cbn [listener_counts busy_before_idle_marks].
  destruct ev as [data | store | t | r resp | w];
    try (match goal with
         | |- context [dispatch ?q ?e] =>
             pose proof (dispatch_frame q e) as [Hd Hf]; cbn in Hf;
             rewrite Hl in Hf; rewrite (IH _ Hf), Hd
         end; reflexivity).
  pose proof (mask_step p store) as Hm. cbv zeta in Hm.
  rewrite Hm, Hl. clear Hm.
  pose proof (listener_step p store) as Hs. cbv zeta in Hs.
  rewrite Hl in Hs.
  destruct (idle_event (drive p) (StateLoad store)) eqn:Hi;
    destruct Hs as (Hl' & _ & _).
  - rewrite (latched_masks evs _ Hl'). cbn [map]. rewrite map_map.
    f_equal. unfold idle_event, busy_event in *.
    destruct (findRecord (records store) (drive p)) as [r|]; [|discriminate].
    now destruct (truthy (state r)).
  - rewrite (IH _ Hl'), dispatch_drive. reflexivity.
Qed.

(** X9. Over any run of events of a panel from its creation, the tape
    store listener schedules one mask of the status grid on every snapshot
    that shows the drive busy before the first idle snapshot, and none on
    any other event: the region is masked again and again while the drive
    stays busy, and never after the drive was seen idle. *)
Theorem masks_before_first_idle (d : jsstring) (evs : list event) :
  listener_counts is_mask (create d) evs =
    map Nat.b2n (busy_before_idle_marks d evs).
Proof. apply (unlatched_masks evs (create d)). reflexivity. Qed.





End MaskAndInit.

(* ================================================================== *)
(** * The information panel on snapshots and clicks *)
(* ================================================================== *)

Section InfoPanelEvents.
Import DriveInfoPanel DriveInfoClick.

Lemma listening_app (l l' : list effect) (b : bool) :
  listening (l ++ l') b = listening l' (listening l b).
Proof.
  revert b; induction l as [|e l IH]; intros b; [reflexivity|].
  destruct e; cbn; apply IH.
Qed.

Lemma pointer_app (l l' : list effect) (b : bool) :
  pointer (l ++ l') b = pointer l' (pointer l b).
Proof.
  revert b; induction l as [|e l IH]; intros b; [reflexivity|].
  destruct e; cbn; apply IH.
Qed.

Lemma updateData_rendered (store : tapestore) (p : Panel) (r : device) :
  findRecord (records store) (drive_name (drive p)) = Some r ->
  stage p = Rendered ->
  updateData (Some store) p =
    ({| drive := drive p; vm_drive := Some r; stage := Rendered;
        trace := trace p ++
                 ElRemoveListener "click" ::
                 (if truthy (state r)
                  then [ElOn "click"; ElAddCls "info-pointer"]
                  else [ElRemoveCls "info-pointer"]) ++ [VmNotify] |}, Ok tt).
Proof.
  intros H Hs.
  unfold updateData, bind, get, emit, vm_set_drive, modify,
    down_statewidget, getEl. cbn.
  rewrite H. cbn. rewrite Hs. cbn.
  destruct (truthy (state r)); cbn; repeat rewrite <- app_assoc; reflexivity.
Qed.

Lemma updateData_unrendered (store : tapestore) (p : Panel) (r : device) :
  findRecord (records store) (drive_name (drive p)) = Some r ->
  stage p <> Rendered ->
  exists what,
    updateData (Some store) p =
      ({| drive := drive p; vm_drive := Some r; stage := stage p;
          trace := trace p |}, Throw (TypeError what)).
Proof.
  intros H Hs.
  unfold updateData, bind, get, emit, vm_set_drive, modify,
    down_statewidget, getEl. cbn.
  rewrite H. cbn.
  destruct (stage p); cbn; try (eexists; reflexivity). now elim Hs.
Qed.

(** X11. [updateData] guards the store and the record but not the state
    widget.  Without a store, or on a snapshot that does not list the
    panel's drive, it returns and leaves the panel exactly as it is.  On a
    snapshot that lists the drive it stores that record in the view model
    and then returns normally exactly when the panel is rendered; before
    that it raises a TypeError on the missing widget or element, having
    made no outside call. *)
Theorem updateData_fail_soft (store : option tapestore) (p : Panel) :
  match store with
  | None => updateData store p = (p, Ok tt)
  | Some s =>
      match findRecord (records s) (drive_name (drive p)) with
      | None => updateData store p = (p, Ok tt)
      | Some r =>
          vm_drive (fst (updateData store p)) = Some r /\
          drive (fst (updateData store p)) = drive p /\
          (snd (updateData store p) = Ok tt <-> stage p = Rendered) /\
          (stage p <> Rendered ->
             trace (fst (updateData store p)) = trace p /\
             exists what, snd (updateData store p) = Throw (TypeError what))
      end
  end.
Proof.
  destruct store as [s|]; [|reflexivity].
  destruct (findRecord (records s) (drive_name (drive p))) as [r|] eqn:H.
  - assert (Hd : stage p = Rendered \/ stage p <> Rendered)
      by (destruct (stage p); auto; right; discriminate).
    destruct Hd as [Hs | Hs].
    + rewrite (updateData_rendered s p r H Hs). cbn.
      split; [reflexivity|]. split; [reflexivity|].
      split; [split; auto|]. intros Hn. now elim Hn.
    + destruct (updateData_unrendered s p r H Hs) as [what ->]. cbn.
      split; [reflexivity|]. split; [reflexivity|].
      split; [split; [intros Hc; discriminate Hc | intros Hc; now elim Hs]|].
      intros _. split; [reflexivity | now exists what].
  - unfold updateData, bind, get. cbn. now rewrite H.
Qed.

Lemma clickState_cases (right_aligned : bool) (p : Panel) :
  (clickState right_aligned p = [TaskViewer (drive_state p) None] /\
   right_aligned = true /\
   (exists rest, drive_state p = JStr (lit "UPID" ++ rest)) /\
   truthy (drive_state p) = true) \/
  (clickState right_aligned p = [] /\
   ~ (right_aligned = true /\
      exists rest, drive_state p = JStr (lit "UPID" ++ rest))).
Proof.
  unfold clickState.
  destruct right_aligned;
    [|right; split; [reflexivity | intros [Hc _]; discriminate]].
  destruct (drive_state p) as [| |s];
    try (right; split; [reflexivity | intros (_ & rest & Hc); discriminate]).
  destruct (startsWith s (lit "UPID")) eqn:Hs.
  - pose proof Hs as Hp. apply startsWith_prefix in Hp as [rest Hr].
    assert (Ht : truthy (JStr s) = true) by (subst s; reflexivity).
    rewrite Ht. cbn. left. repeat split; auto. exists rest. now subst s.
  - rewrite orb_true_r. right. split; [reflexivity|].
    intros (_ & rest & Hc). injection Hc as ->.
    rewrite (proj2 (startsWith_prefix _ _)) in Hs by now exists rest.
    discriminate.
Qed.

(** X12. After [updateData] on a rendered panel and a snapshot that lists
    the drive, the last
    call on the click listener is an [on] and the last call on the pointer
    class an [addCls] exactly when the record's [state] is truthy.  A click
    then opens at most one window: a task viewer on that [state], exactly
    when the target is right-aligned and the [state] begins with ["UPID"];
    so a viewer is only ever opened where the listener was attached, and it
    shows the task of the latest snapshot. *)
Theorem click_after_update (store : tapestore) (p : Panel) (r : device)
        (b right_aligned : bool) :
  findRecord (records store) (drive_name (drive p)) = Some r ->
  stage p = Rendered ->
  let p' := fst (updateData (Some store) p) in
  listening (trace p') b = truthy (state r) /\
  pointer (trace p') b = truthy (state r) /\
  (clickState right_aligned p' = [TaskViewer (state r) None] \/
   clickState right_aligned p' = []) /\
  (clickState right_aligned p' = [TaskViewer (state r) None] <->
   right_aligned = true /\ exists rest, state r = JStr (lit "UPID" ++ rest)) /\
  (clickState right_aligned p' <> [] -> listening (trace p') b = true).
Proof.
  intros H Hs. cbv zeta. rewrite (updateData_rendered store p r H Hs).
  cbn [fst trace]. rewrite listening_app, pointer_app.
  set (p' := {| drive := drive p; vm_drive := Some r; stage := Rendered;
                trace := _ |}).
  assert (Hl : listening (ElRemoveListener "click" ::
                 (if truthy (state r)
                  then [ElOn "click"; ElAddCls "info-pointer"]
                  else [ElRemoveCls "info-pointer"]) ++ [VmNotify])
                 (listening (trace p) b) = truthy (state r))
    by now destruct (truthy (state r)).
  assert (Hp : pointer (ElRemoveListener "click" ::
                 (if truthy (state r)
                  then [ElOn "click"; ElAddCls "info-pointer"]
                  else [ElRemoveCls "info-pointer"]) ++ [VmNotify])
                 (pointer (trace p) b) = truthy (state r))
    by now destruct (truthy (state r)).
  rewrite Hl, Hp.
  destruct (clickState_cases right_aligned p')
    as [(Hc & Hra & Hu & Ht) | (Hc & Hn)];
    change (drive_state p') with (state r) in *; rewrite Hc.
  - repeat split; auto.
  - split; [reflexivity|]. split; [reflexivity|]. split; [now right|].
    split; [split; [intros Hd; discriminate Hd | intros Hd; now elim Hn]|].
    intros Hd. now elim Hd.
Qed.

Lemma click_after_update_witness :
  clickState true (fst (updateData (Some Sample.busy_snapshot)
                                   (render (create (JStr Sample.drv0))))) =
    [TaskViewer (JStr (lit "UPID:pbs:0001:eject-media:drv0:root@pam:")) None].
Proof.
  apply (click_after_update Sample.busy_snapshot
           (render (create (JStr Sample.drv0)))
           {| name := Sample.drv0;
              state := JStr (lit "UPID:pbs:0001:eject-media:drv0:root@pam:") |}
           false true).
  - reflexivity.
  - reflexivity.
  - split; [reflexivity|].
    exists (lit ":pbs:0001:eject-media:drv0:root@pam:"). reflexivity.
Defined.

End InfoPanelEvents.

(* ================================================================== *)
(** * The pool edit window *)
(* ================================================================== *)

Section PoolEdit.
Import PoolEditWindow.

Lemma unreserved_component_char (c : N) :
  unreserved c = true -> component_char c = true.
Proof. unfold component_char. now intros ->. Qed.

Lemma hex_digit_char (n : N) :
  (n < 16)%N -> component_char (hex_digit n) = true.
Proof.
  intros Hn. unfold component_char, hex_digit.
  destruct (n <? 10)%N eqn:E;
    [apply N.ltb_lt in E | apply N.ltb_ge in E];
    repeat rewrite ?orb_true_iff, ?andb_true_iff, ?N.leb_le, ?N.eqb_eq; lia.
Qed.

Lemma percent_chars (octet : N) :
  (octet < 256)%N -> forallb component_char (percent octet) = true.
Proof.
  intros Hb. unfold percent. cbn [forallb].
  rewrite !hex_digit_char.
  - reflexivity.
  - now apply N.mod_lt.
  - apply N.Div0.div_lt_upper_bound. lia.
Qed.

Lemma escapes_chars (octets : list N) :
  Forall (fun b => (b < 256)%N) octets ->
  forallb component_char (flat_map percent octets) = true.
Proof.
  induction 1 as [|b l Hb Hl IH]; [reflexivity|].
  cbn [flat_map]. now rewrite forallb_app, percent_chars, IH.
Qed.

Lemma utf8_octets (cp : N) :
  (cp < 1114112)%N -> Forall (fun b => (b < 256)%N) (utf8 cp).
Proof.
  intros Hcp. unfold utf8.
  assert (Hm : forall x, (128 + x mod 64 < 256)%N)
    by (intros x; pose proof (N.mod_lt x 64); lia).
  destruct (cp <? 128)%N eqn:E1; [apply N.ltb_lt in E1; repeat constructor; lia|].
  destruct (cp <? 2048)%N eqn:E2.
  { apply N.ltb_lt in E2. repeat constructor; auto.
    assert (cp / 64 < 32)%N by (apply N.Div0.div_lt_upper_bound; lia). lia. }
  destruct (cp <? 65536)%N eqn:E3.
  { apply N.ltb_lt in E3. repeat constructor; auto.
    assert (cp / 4096 < 16)%N by (apply N.Div0.div_lt_upper_bound; lia). lia. }
  repeat constructor; auto.
  assert (cp / 262144 < 5)%N by (apply N.Div0.div_lt_upper_bound; lia). lia.
Qed.

Lemma encode_chars (n : nat) : forall s e,
  List.length s <= n ->
  code_units s ->
  encodeURIComponent s = Some e ->
  forallb component_char e = true.
Proof.
  induction n as [|n IH]; intros s e Hn Hs He.
  - destruct s; [|cbn in Hn; lia]. injection He as <-. reflexivity.
  - destruct s as [|c t]; [injection He as <-; reflexivity|].
    cbn in Hn. apply Forall_cons_iff in Hs as [Hc Ht]. cbn [encodeURIComponent] in He.
    destruct (unreserved c) eqn:Hu.
    { destruct (encodeURIComponent t) as [e'|] eqn:Et; [|discriminate].
      injection He as <-. cbn [forallb].
      rewrite (unreserved_component_char c Hu).
      apply (IH t e'); auto; lia. }
    destruct (is_trail c) eqn:Htr; [discriminate|].
    destruct (is_lead c) eqn:Hld.
    + destruct t as [|d t']; [discriminate|].
      destruct (is_trail d) eqn:Htd; [|discriminate].
      destruct (encodeURIComponent t') as [e'|] eqn:Et; [|discriminate].
      injection He as <-. rewrite forallb_app.
      apply Forall_cons_iff in Ht as [_ Ht']. cbn in Hn.
      rewrite (IH t' e') by (auto; lia). rewrite escapes_chars; [reflexivity|].
      apply utf8_octets. unfold is_lead, is_trail in *.
      apply andb_true_iff in Hld as [_ H1]. apply andb_true_iff in Htd as [_ H2].
      apply N.leb_le in H1, H2. lia.
    + destruct (encodeURIComponent t) as [e'|] eqn:Et; [|discriminate].
      injection He as <-. rewrite forallb_app.
      rewrite (IH t e') by (auto; lia). rewrite escapes_chars; [reflexivity|].
      apply utf8_octets. lia.
Qed.

(** X13. When [cbindData] returns, the window is in create mode exactly
    when no pool id was given: then it posts to the base URL.  With a pool
    id it puts to the base URL followed by one more path segment, the
    encoded id, which for a string of 16-bit code units is made of
    unreserved characters and percent escapes only, so it holds none of
    [/ ? # & = +] or a space. *)
Theorem cbindData_create_or_edit (poolid : jsval) (me me' : Window) :
  cbindData poolid me = (me', Returned) ->
  isCreate me' = negb (truthy poolid) /\
  (truthy poolid = false ->
     url me' = JStr baseurl /\ method me' = JStr (lit "POST")) /\
  (truthy poolid = true ->
     method me' = JStr (lit "PUT") /\
     exists e,
       encodeURIComponent (poolid_text poolid) = Some e /\
       url me' = JStr (baseurl ++ lit "/" ++ e) /\
       (code_units (poolid_text poolid) ->
        forallb component_char e = true)) /\
  Forall (fun c => component_char c = false) (lit "/?#&=+ ").
Proof.
  unfold cbindData. intros H.
  destruct (truthy poolid) eqn:Ht.
  - destruct (encodeURIComponent (poolid_text poolid)) as [e|] eqn:He;
      cbn in H; [|discriminate].
    injection H as <-. cbn. repeat split; try discriminate.
    + exists e. repeat split. intros Hs.
      now apply (encode_chars _ _ e (le_n _) Hs).
    + repeat constructor.
  - injection H as <-. cbn. repeat split; try discriminate.
    repeat constructor.
Qed.

Lemma cbindData_create_or_edit_witness :
  isCreate (fst (cbindData (JStr (lit "a/b c")) defaults)) = false /\
  url (fst (cbindData (JStr (lit "a/b c")) defaults)) =
    JStr (lit "/api2/extjs/config/media-pool/a%2Fb%20c").
Proof.
  destruct (cbindData_create_or_edit (JStr (lit "a/b c")) defaults
              (fst (cbindData (JStr (lit "a/b c")) defaults)))
    as (Hc & _ & He & _).
  - reflexivity.
  - split; [exact Hc|]. reflexivity.
Defined.

(** X14. A pool id made of unreserved characters only (letters, digits
    and [- _ . ! ~ * ' ( )]) is put into the URL unchanged, and a pool id
    without surrogate code units is always encoded: [cbindData] returns
    for it and never ends in a URIError. *)
Theorem cbindData_returns (s : jsstring) (me : Window) :
  Forall (fun c => is_lead c = false /\ is_trail c = false) s ->
  (exists me', cbindData (JStr s) me = (me', Returned)) /\
  (forallb unreserved s = true -> encodeURIComponent s = Some s).
Proof.
  intros Hs. split.
  - assert (He : exists e, encodeURIComponent s = Some e).
    { induction Hs as [|c t [Hl Ht] Hs IH]; [now exists []|].
      destruct IH as [e He]. cbn [encodeURIComponent].
      rewrite Hl, Ht, He. destruct (unreserved c); cbn; eexists; reflexivity. }
    destruct He as [e He]. unfold cbindData. cbn [poolid_text].
    destruct (truthy (JStr s)); rewrite ?He; cbn; eexists; reflexivity.
  - clear Hs. induction s as [|c t IH]; [reflexivity|].
    cbn [forallb encodeURIComponent]. intros H.
    apply andb_true_iff in H as [Hc Ht]. now rewrite Hc, (IH Ht).
Qed.

Lemma cbindData_returns_witness :
  exists me', cbindData (JStr (lit "pool 1")) defaults = (me', Returned).
Proof.
  apply (cbindData_returns (lit "pool 1") defaults).
  repeat constructor.
Defined.

End PoolEdit.

(* ================================================================== *)
(** * The pieces of the split and the URLs of the drive panel *)
(* ================================================================== *)

Section Pieces.
Import DriveStatusUrls.

Lemma filter_skip_space (s : jsstring) :
  filter (fun c => negb (is_space c)) (skip_space s) =
  filter (fun c => negb (is_space c)) s.
Proof.
  induction s as [|c s IH]; [reflexivity|].
  cbn [skip_space filter]. destruct (is_space c) eqn:Hc; cbn [negb].
  - exact IH.
  - cbn [filter]. now rewrite Hc.
Qed.

Lemma split_loop_concat (fuel : nat) : forall piece rest,
  List.length rest <= fuel ->
  List.concat (split_loop separator fuel piece rest) =
    piece ++ filter (fun c => negb (is_space c)) rest.
Proof.
  induction fuel as [|fuel IH]; intros piece rest Hf;
    destruct rest as [|c r]; cbn in Hf; try lia;
    try (cbn; now rewrite app_nil_r).
  cbn [split_loop]. rewrite separator_space_plus. unfold space_plus.
  cbn [filter]. destruct (is_space c) eqn:Hc; cbn [negb].
  - cbn [List.concat]. rewrite IH by (pose proof (skip_space_length r); lia).
    cbn [app]. now rewrite filter_skip_space.
  - rewrite IH by lia. now rewrite <- app_assoc.
Qed.

Lemma split_loop_pieces (fuel : nat) : forall piece rest,
  List.length rest <= fuel ->
  Forall (fun c => is_space c = false) piece ->
  Forall (Forall (fun c => is_space c = false))
         (split_loop separator fuel piece rest).
Proof.
  induction fuel as [|fuel IH]; intros piece rest Hf Hp;
    destruct rest as [|c r]; cbn in Hf; try lia;
    try (cbn; now repeat constructor).
  cbn [split_loop]. rewrite separator_space_plus. unfold space_plus.
  destruct (is_space c) eqn:Hc.
  - constructor; [assumption|].
    apply IH; [pose proof (skip_space_length r); lia | constructor].
  - apply IH; [lia|]. apply Forall_app. split; [assumption | now constructor].
Qed.

Lemma split_loop_alternation (fuel : nat) : forall piece rest,
  split_loop separator fuel piece rest = split_loop space_plus fuel piece rest.
Proof.
  induction fuel as [|fuel IH]; intros piece rest;
    destruct rest as [|c r]; try reflexivity.
  cbn [split_loop]. rewrite separator_space_plus.
  destruct (space_plus (c :: r)); now rewrite IH.
Qed.

Lemma split_loop_nonempty (fuel : nat) : forall piece rest,
  split_loop separator fuel piece rest <> [].
Proof.
  induction fuel as [|fuel IH]; intros piece rest; destruct rest as [|c r];
    try discriminate.
  cbn [split_loop]. destruct (separator (c :: r)); [discriminate | apply IH].
Qed.

(** X15. The split of the status text loses white space and nothing
    else: the pieces, put together, are the text without its white space
    characters, no piece holds a white space character, and there is
    always at least one piece.  The second alternative of the separator
    changes nothing: the split is that of a single run of white space. *)
Theorem split_pieces (s : jsstring) :
  List.concat (split separator s) = filter (fun c => negb (is_space c)) s /\
  Forall (Forall (fun c => is_space c = false)) (split separator s) /\
  split separator s <> [] /\
  split separator s = split space_plus s.
Proof.
  unfold split. repeat split.
  - now rewrite split_loop_concat.
  - apply split_loop_pieces; [lia | constructor].
  - apply split_loop_nonempty.
  - apply split_loop_alternation.
Qed.

(** X16. The two URLs of a drive panel determine the drive: panels of
    different drives never share a status URL or a cartridge memory URL.
    The drive is put into the path as it is, and both URLs have an empty
    path segment before the last one. *)
Theorem drive_urls (d d' : jsstring) :
  (driveStatusUrl d = driveStatusUrl d' -> d = d') /\
  (cartridgeMemoryUrl d = cartridgeMemoryUrl d' -> d = d') /\
  driveStatusUrl d = lit "/api2/json/tape/drive/" ++ d ++ lit "//status" /\
  cartridgeMemoryUrl d =
    lit "/api2/json/tape/drive/" ++ d ++ lit "//cartridge-memory".
Proof.
  unfold driveStatusUrl, cartridgeMemoryUrl, baseurl.
  repeat split; try (now rewrite <- !app_assoc).
  - rewrite <- !app_assoc. intros H. apply app_inv_head in H.
    now apply app_inv_tail in H.
  - rewrite <- !app_assoc. intros H. apply app_inv_head in H.
    now apply app_inv_tail in H.
Qed.

End Pieces.
